(** * A shallow embedding of the arena mini-game of [GameArena.tsx]

    The React component keeps its state in hooks ([gameState],
    [currentPlayer], [collectibles], [timeLeft]) and mutates it from three
    kinds of callbacks: the pointer handler, the animation-frame loop and the
    one-second timer.  We model the component state as a record [Arena] and
    every callback as a function on it; a callback runs as one atomic step,
    followed by the timer effect that React runs after the re-render.

    Coordinates are continuous; they are modelled as rationals [Q].
    [Math.random()] is an injectable random source: an infinite sequence of
    draws with a cursor, consumed left to right in JavaScript evaluation
    order. *)

From Stdlib Require Import ZArith QArith List String Bool Lia Reals.
From Stdlib Require Import Qreals Qround Lra Ascii.
Import ListNotations.

Open Scope Z_scope.

(** ** Data model *)

(** [gameState : 'waiting' | 'playing' | 'ended'] *)
Inductive phase := waiting | playing | ended.

Definition phase_eqb (a b : phase) : bool :=
  match a, b with
  | waiting, waiting | playing, playing | ended, ended => true
  | _, _ => false
  end.

(** [type : 'coin' | 'powerup'] *)
Inductive ctype := coin | powerup.

(** Collectible ids: [`collectible-${i}`] at round start and
    [`collectible-${Date.now()}`] for a replacement. *)
Inductive cid := collectible_idx (i : nat) | collectible_time (t : Z).

Record Collectible := mkCollectible {
  c_id : cid;
  c_x : Q;
  c_y : Q;
  c_type : ctype;
  c_value : Z
}.

Record Player := mkPlayer {
  p_id : string;
  p_nftId : string;
  p_x : Q;
  p_y : Q;
  p_score : Z;
  p_health : Z;
  p_color : string;
  p_name : string
}.

(** The canvas element: its logical size, its on-page offset
    ([getBoundingClientRect]) and whether [getContext('2d')] succeeds. *)
Record Canvas := mkCanvas {
  cv_width : Q;
  cv_height : Q;
  cv_left : Q;
  cv_top : Q;
  cv_ctx2d : bool
}.

(** The random source behind [Math.random()]. *)
Record Rng := mkRng {
  draws : nat -> Q;
  cursor : nat
}.

Definition Math_random (g : Rng) : Q * Rng :=
  (draws g (cursor g), mkRng (draws g) (S (cursor g))).

(** The component state. *)
Record Arena := mkArena {
  gameState : phase;
  currentPlayer : Player;
  collectibles : list Collectible;
  timeLeft : Z;
  canvasRef : option Canvas;
  rng : Rng
}.

(** Notifications sent to the parent: [onScoreUpdate] and [onGameEnd]. *)
Inductive note := score_update (n : Z) | game_end (n : Z).

(** Record updates. *)
Definition set_score (n : Z) (p : Player) : Player :=
  mkPlayer (p_id p) (p_nftId p) (p_x p) (p_y p) n (p_health p) (p_color p) (p_name p).

Definition set_pos (x y : Q) (p : Player) : Player :=
  mkPlayer (p_id p) (p_nftId p) x y (p_score p) (p_health p) (p_color p) (p_name p).

Definition reset_player (p : Player) : Player :=
  mkPlayer (p_id p) (p_nftId p) (p_x p) (p_y p) 0 100 (p_color p) (p_name p).

Definition with_player (p : Player) (s : Arena) : Arena :=
  mkArena (gameState s) p (collectibles s) (timeLeft s) (canvasRef s) (rng s).

Definition with_collectibles (cs : list Collectible) (g : Rng) (s : Arena) : Arena :=
  mkArena (gameState s) (currentPlayer s) cs (timeLeft s) (canvasRef s) g.

Definition with_phase (ph : phase) (s : Arena) : Arena :=
  mkArena ph (currentPlayer s) (collectibles s) (timeLeft s) (canvasRef s) (rng s).

Definition with_time (t : Z) (s : Arena) : Arena :=
  mkArena (gameState s) (currentPlayer s) (collectibles s) t (canvasRef s) (rng s).

(** ** JavaScript helpers on numbers *)

Definition Qlt_bool (a b : Q) : bool := negb (Qle_bool b a).

(** [Math.min] and [Math.max] on ordinary numbers. *)
Definition Math_min (a b : Q) : Q := if Qle_bool a b then a else b.
Definition Math_max (a b : Q) : Q := if Qle_bool b a then a else b.

(** ** Spawning *)

(** One collectible literal: [x], [y], [type] and [value] are evaluated in
    this order, each with its own [Math.random()] draw. *)
Definition new_collectible (id : cid) (g : Rng) : Collectible * Rng :=
  let '(rx, g1) := Math_random g in
  let '(ry, g2) := Math_random g1 in
  let '(rt, g3) := Math_random g2 in
  let '(rv, g4) := Math_random g3 in
  (mkCollectible id (rx * (550 # 1) + (25 # 1)) (ry * (350 # 1) + (25 # 1))
     (if Qlt_bool (7 # 10) rt then powerup else coin)
     (if Qlt_bool (7 # 10) rv then 50 else 10), g4).

(** The [for (let i = 0; i < 10; i++)] loop of [spawnCollectibles]. *)
Fixpoint spawn_loop (i n : nat) (g : Rng) : list Collectible * Rng :=
  match n with
  | O => ([], g)
  | S n' =>
      let '(c, g1) := new_collectible (collectible_idx i) g in
      let '(cs, g2) := spawn_loop (S i) n' g1 in
      (c :: cs, g2)
  end.

Definition spawnCollectibles (s : Arena) : Arena :=
  let '(cs, g) := spawn_loop 0 10 (rng s) in
  with_collectibles cs g s.

(** ** Collision and scoring: [checkCollisions] *)

(** The source tests [Math.sqrt(dx*dx + dy*dy) < 20]; on exact numbers this
    is the same as [dx*dx + dy*dy < 400] (lemma [within_pickup_dist]). *)
Definition within_pickup (p : Player) (c : Collectible) : bool :=
  let dx := (p_x p - c_x c)%Q in
  let dy := (p_y p - c_y c)%Q in
  Qlt_bool (dx * dx + dy * dy) (400 # 1).

(** The [collectibles.filter(...)] callback.  [cur] is the [currentPlayer]
    captured by the closure; [pending] is the player after the queued
    [setCurrentPlayer(prev => ({ ...prev, score: newScore }))] updates,
    applied in order.  Each update writes [cur.score + value], so it does not
    read [prev.score]. *)
Fixpoint collect_filter (cur pending : Player) (cs : list Collectible)
  : list Collectible * Player * list note :=
  match cs with
  | [] => ([], pending, [])
  | c :: rest =>
      if within_pickup cur c then
        let newScore := p_score cur + c_value c in
        let '(kept, pend, ns) := collect_filter cur (set_score newScore pending) rest in
        (kept, pend, score_update newScore :: ns)
      else
        let '(kept, pend, ns) := collect_filter cur pending rest in
        (c :: kept, pend, ns)
  end.

(** [checkCollisions]; [now] is [Date.now()]. *)
Definition checkCollisions (now : Z) (s : Arena) : Arena * list note :=
  let cur := currentPlayer s in
  let '(kept, pend, ns) := collect_filter cur cur (collectibles s) in
  let s1 := with_player pend s in
  if Nat.eqb (List.length kept) (List.length (collectibles s)) then (s1, ns)
  else if Nat.ltb (List.length kept) 5 then
    let '(c, g) := new_collectible (collectible_time now) (rng s) in
    (with_collectibles (kept ++ [c]) g s1, ns)
  else (with_collectibles kept (rng s) s1, ns).

(** ** Rendering *)

(** A thrown exception or a value. *)
Inductive result (A : Type) := Ok (a : A) | Throw (msg : string).
Arguments Ok {A} a.
Arguments Throw {A} msg.

(** Property access [o.f] on a reference that may be [null]. *)
Definition get_prop {A B : Type} (o : option A) (f : A -> B) : result B :=
  match o with
  | Some a => Ok (f a)
  | None => Throw "TypeError: Cannot read properties of null"
  end.

(** Optional chaining [o?.f()]. *)
Definition opt_chain {A B : Type} (o : option A) (f : A -> option B) : option B :=
  match o with
  | Some a => f a
  | None => None
  end.

(** The 2D context of a canvas, when the host provides one. *)
Record Ctx2D := mkCtx2D { ctx_canvas : Canvas }.

Definition getContext2d (cv : Canvas) : option Ctx2D :=
  if cv_ctx2d cv then Some (mkCtx2D cv) else None.

(** The drawing commands issued by [render]. *)
Inductive draw :=
  | clear_rect (w h : Q)
  | border_rect (w h : Q)
  | grid_v (x : Q)
  | grid_h (y : Q)
  | draw_collectible (x y : Q) (t : ctype)
  | draw_player (x y : Q) (color : string)
  | draw_name (name : string) (x y : Q).

(** [for (let i = 0; i < bound; i += 50)]. *)
Definition grid_positions (bound : Q) : list Q :=
  map (fun k => (Z.of_nat k # 1) * (50 # 1))%Q
      (seq 0 (Z.to_nat (Qceiling (bound / (50 # 1))))).

Definition render (s : Arena) : result (list draw) :=
  let canvas := canvasRef s in
  let ctx := opt_chain canvas getContext2d in
  match ctx, canvas with
  | None, _ | _, None => Ok []
  | Some _, Some _ =>
      match get_prop canvas cv_width, get_prop canvas cv_height with
      | Ok w, Ok h =>
          let p := currentPlayer s in
          Ok ([clear_rect w h; border_rect w h]
              ++ map grid_v (grid_positions w)
              ++ map grid_h (grid_positions h)
              ++ map (fun c => draw_collectible (c_x c) (c_y c) (c_type c)) (collectibles s)
              ++ [draw_player (p_x p) (p_y p) (p_color p);
                  draw_name (p_name p) (p_x p) (p_y p - (25 # 1))])
      | Throw e, _ | _, Throw e => Throw e
      end
  end.

(** [gameLoop]: render, check collisions, and request the next frame while
    playing.  Returns the new state, the notifications, the drawing and
    whether a next frame is requested. *)
Definition gameLoop (now : Z) (s : Arena) : result (Arena * list note * list draw * bool) :=
  match render s with
  | Throw e => Throw e
  | Ok d =>
      let '(s1, ns) := checkCollisions now s in
      Ok (s1, ns, d, phase_eqb (gameState s) playing)
  end.

(** ** Pointer, start and end *)

Definition handleMouseMove (clientX clientY : Q) (s : Arena) : Arena :=
  if negb (phase_eqb (gameState s) playing) then s
  else match canvasRef s with
       | None => s
       | Some cv =>
           let x := (clientX - cv_left cv)%Q in
           let y := (clientY - cv_top cv)%Q in
           with_player
             (set_pos (Math_max (15 # 1) (Math_min x (cv_width cv - (15 # 1))))
                      (Math_max (15 # 1) (Math_min y (cv_height cv - (15 # 1))))
                      (currentPlayer s)) s
       end.

Definition startGame (s : Arena) : Arena :=
  let s1 := with_time 60 (with_phase playing s) in
  let s2 := with_player (reset_player (currentPlayer s1)) s1 in
  spawnCollectibles s2.

Definition endGame (s : Arena) : Arena * list note :=
  (with_phase ended s, [game_end (p_score (currentPlayer s))]).

(** ** The timer *)

(** The [setTimeout] callback: [setTimeLeft(timeLeft - 1)]. *)
Definition timer_fire (s : Arena) : Arena := with_time (timeLeft s - 1) s.

(** Whether the timer effect has a pending [setTimeout]. *)
Definition timer_scheduled (s : Arena) : bool :=
  phase_eqb (gameState s) playing && (0 <? timeLeft s).

(** The [else if (timeLeft === 0 && gameState === 'playing') endGame()]
    branch of the timer effect, run after each re-render. *)
Definition timer_effect (s : Arena) : Arena * list note :=
  if (timeLeft s =? 0) && phase_eqb (gameState s) playing then endGame s
  else (s, []).

(** ** The event step *)

(** The callbacks that can run.  A frame runs only while a frame is
    requested (the game-loop effect registers one while playing and cancels
    it on every state change); a timer callback runs only while one is
    scheduled; [ev_start] is the button's [onClick={startGame}]. *)
Inductive event :=
  | ev_move (clientX clientY : Q)
  | ev_frame (now : Z)
  | ev_timer
  | ev_start.

Definition handle (e : event) (s : Arena) : Arena * list note :=
  match e with
  | ev_move cx cy => (handleMouseMove cx cy s, [])
  | ev_frame now =>
      if phase_eqb (gameState s) playing then
        match gameLoop now s with
        | Ok (s1, ns, _, _) => (s1, ns)
        | Throw _ => (s, [])
        end
      else (s, [])
  | ev_timer => if timer_scheduled s then (timer_fire s, []) else (s, [])
  | ev_start => (startGame s, [])
  end.

(** One callback, then the timer effect of the re-render. *)
Definition step (e : event) (s : Arena) : Arena * list note :=
  let '(s1, ns1) := handle e s in
  let '(s2, ns2) := timer_effect s1 in
  (s2, ns1 ++ ns2).

Fixpoint run (es : list event) (s : Arena) : Arena * list note :=
  match es with
  | [] => (s, [])
  | e :: es' =>
      let '(s1, ns1) := step e s in
      let '(s2, ns2) := run es' s1 in
      (s2, ns1 ++ ns2)
  end.

(** The mount effect: size the canvas to 600x400 and spawn the first
    collectibles, unless the canvas or its 2D context is missing.  The
    component starts in ['waiting'] with [timeLeft = 60] and the [player]
    prop. *)
Definition mount (p : Player) (canvas : option Canvas) (g : Rng) : Arena :=
  let s0 := mkArena waiting p [] 60 canvas g in
  match canvas with
  | None => s0
  | Some cv =>
      match getContext2d cv with
      | None => s0
      | Some _ =>
          let cv' := mkCanvas (600 # 1) (400 # 1) (cv_left cv) (cv_top cv) (cv_ctx2d cv) in
          spawnCollectibles (mkArena waiting p [] 60 (Some cv') g)
      end
  end.

Inductive reachable : Arena -> Prop :=
  | reach_mount p canvas g : reachable (mount p canvas g)
  | reach_step s e : reachable s -> reachable (fst (step e s)).


(** States reachable from a given mounted state. *)
Inductive reach_from (s0 : Arena) : Arena -> Prop :=
  | rf_refl : reach_from s0 s0
  | rf_step s e : reach_from s0 s -> reach_from s0 (fst (step e s)).

(** ** The caller: the [Index] page *)

(** The [player] prop that [Index] passes to [GameArena]. *)
Definition index_player (nftId : string) (currentScore : Z) (color name : string) : Player :=
  mkPlayer "player-1" nftId (300 # 1) (200 # 1) currentScore 100 color name.

(** [Transaction] of [TransactionModal.tsx]. *)
Inductive tx_type := tx_mint | tx_trade | tx_upgrade | tx_bridge | tx_leaderboard.
Inductive tx_status := tx_pending | tx_confirmed | tx_failed.

Record Transaction := mkTransaction {
  tx_id : Z;                 (* [`tx-${Date.now()}`] *)
  tx_kind : tx_type;
  tx_state : tx_status;
  tx_hash : string;
  tx_from : option string;
  tx_to : option string;
  tx_amount : option Q;
  tx_currency : option string;
  tx_gasUsed : option Z;
  tx_timestamp : Z;
  tx_blockNumber : option Z;
  tx_details : string
}.

(** [Partial<Transaction>]: [None] is an absent key. *)
Record TxOptions := mkTxOptions {
  o_id : option Z;
  o_kind : option tx_type;
  o_state : option tx_status;
  o_hash : option string;
  o_from : option string;
  o_to : option string;
  o_amount : option Q;
  o_currency : option string;
  o_gasUsed : option Z;
  o_timestamp : option Z;
  o_blockNumber : option Z;
  o_details : option string
}.

Definition no_options : TxOptions :=
  mkTxOptions None None None None None None None None None None None None.

(** The value of a key after [{ ..., ...options }]. *)
Definition spread {A : Type} (o : option A) (d : A) : A :=
  match o with Some a => a | None => d end.

Definition spread_opt {A : Type} (o : option A) (d : option A) : option A :=
  match o with Some a => Some a | None => d end.

(** ['0'.repeat(n)]. *)
Fixpoint zeros (n : nat) : string :=
  match n with O => EmptyString | S n' => String "0"%char (zeros n') end.

(** [Math.floor] on numbers. *)
Definition Math_floor (q : Q) : Z := Qfloor q.

(** The decimal rendering of an integer in a template literal. *)
Fixpoint uint_to_string (u : Decimal.uint) : string :=
  match u with
  | Decimal.Nil => EmptyString
  | Decimal.D0 u => String "0"%char (uint_to_string u)
  | Decimal.D1 u => String "1"%char (uint_to_string u)
  | Decimal.D2 u => String "2"%char (uint_to_string u)
  | Decimal.D3 u => String "3"%char (uint_to_string u)
  | Decimal.D4 u => String "4"%char (uint_to_string u)
  | Decimal.D5 u => String "5"%char (uint_to_string u)
  | Decimal.D6 u => String "6"%char (uint_to_string u)
  | Decimal.D7 u => String "7"%char (uint_to_string u)
  | Decimal.D8 u => String "8"%char (uint_to_string u)
  | Decimal.D9 u => String "9"%char (uint_to_string u)
  end.

Definition Z_to_string (z : Z) : string :=
  match Z.to_int z with
  | Decimal.Pos u => uint_to_string u
  | Decimal.Neg u => String "-"%char (uint_to_string u)
  end.

Section Transactions.

(** [Number.prototype.toString(36)] on a draw, which we do not model; the
    hash takes its characters [2] to [14] with [substring(2, 15)]. *)
Variable toString36 : Q -> string.

(** [createTransaction(type, details, options)]; both [Date.now()] calls
    read [now].  ['0'.repeat(64 - baseHash.length)] throws a [RangeError]
    when the count is negative. *)
Definition createTransaction (type : tx_type) (details : string) (opts : TxOptions)
  (now : Z) (g : Rng) : result (Transaction * Rng) :=
  let '(r0, g1) := Math_random g in
  let baseHash := substring 2 13 (toString36 r0) in
  let pad := (64 - Z.of_nat (String.length baseHash))%Z in
  if (pad <? 0)%Z then Throw "RangeError: Invalid count value"
  else
    let hash := ("0x" ++ baseHash ++ zeros (Z.to_nat pad))%string in
    let '(r1, g2) := Math_random g1 in
    let '(r2, g3) := Math_random g2 in
    let gasUsed := Math_floor (r1 * (100000 # 1)) + 21000 in
    let blockNumber := Math_floor (r2 * (1000000 # 1)) + 18000000 in
    Ok (mkTransaction
          (spread (o_id opts) now)
          (spread (o_kind opts) type)
          (spread (o_state opts) tx_pending)
          (spread (o_hash opts) hash)
          (spread_opt (o_from opts) None)
          (spread_opt (o_to opts) None)
          (spread_opt (o_amount opts) None)
          (spread_opt (o_currency opts) None)
          (spread_opt (o_gasUsed opts) (Some gasUsed))
          (spread (o_timestamp opts) now)
          (spread_opt (o_blockNumber opts) (Some blockNumber))
          (spread (o_details opts) details), g3).

End Transactions.

(** The part of the [Index] state the arena callbacks touch. *)
Record IndexState := mkIndex {
  currentScore : Z;
  totalEarnings : Q;
  modalOpen : bool;
  modalTx : option Transaction
}.

(** [showTransaction], up to the [setTimeout] that confirms it later. *)
Definition showTransaction (tx : Transaction) (idx : IndexState) : IndexState :=
  mkIndex (currentScore idx) (totalEarnings idx) true (Some tx).

(** The [setTimeout] callback of [showTransaction]. *)
Definition confirmTransaction (tx : Transaction) (g : Rng) (idx : IndexState)
  : IndexState * Rng :=
  let '(r, g1) := Math_random g in
  let confirmed :=
    mkTransaction (tx_id tx) (tx_kind tx) tx_confirmed (tx_hash tx) (tx_from tx)
      (tx_to tx) (tx_amount tx) (tx_currency tx) (tx_gasUsed tx) (tx_timestamp tx)
      (Some (Math_floor (r * (1000000 # 1)) + 18000000)) (tx_details tx) in
  (mkIndex (currentScore idx) (totalEarnings idx) true (Some confirmed), g1).

Definition handleScoreUpdate (score : Z) (idx : IndexState) : IndexState :=
  mkIndex score (totalEarnings idx) (modalOpen idx) (modalTx idx).

Definition leaderboard_options (finalScore : Z) : TxOptions :=
  mkTxOptions None None None None None None
    (Some ((finalScore # 1) * (1 # 1000))%Q) (Some "ENDLESS"%string) None None None None.

Definition handleGameEnd (toString36 : Q -> string) (finalScore : Z) (now : Z) (g : Rng)
  (idx : IndexState) : result (IndexState * Rng) :=
  if (0 <? finalScore)%Z then
    match createTransaction toString36 tx_leaderboard
            ("Recorded high score of " ++ Z_to_string finalScore ++ " points on leaderboard")
            (leaderboard_options finalScore) now g with
    | Throw e => Throw e
    | Ok (tx, g1) =>
        let idx1 := showTransaction tx idx in
        Ok (mkIndex (currentScore idx1)
              (totalEarnings idx1 + (finalScore # 1) * (1 # 10))%Q
              (modalOpen idx1) (modalTx idx1), g1)
    end
  else Ok (idx, g).

(** The parent receiving the arena's notifications, in order. *)
Definition index_on_note (toString36 : Q -> string) (now : Z) (n : note)
  (st : IndexState * Rng) : result (IndexState * Rng) :=
  let '(idx, g) := st in
  match n with
  | score_update k => Ok (handleScoreUpdate k idx, g)
  | game_end k => handleGameEnd toString36 k now g idx
  end.

Fixpoint index_on_notes (toString36 : Q -> string) (now : Z) (ns : list note)
  (st : IndexState * Rng) : result (IndexState * Rng) :=
  match ns with
  | [] => Ok st
  | n :: ns' =>
      match index_on_note toString36 now n st with
      | Throw e => Throw e
      | Ok st1 => index_on_notes toString36 now ns' st1
      end
  end.



(** A spawned collectible lies inside [[25, 575) x [25, 375)]. *)
Definition in_arena_bounds (c : Collectible) : Prop :=
  (25 # 1 <= c_x c < 575 # 1)%Q /\ (25 # 1 <= c_y c < 375 # 1)%Q.

(** [Math.random()] returns numbers in [[0, 1)]. *)
Definition draws_ok (g : Rng) : Prop := forall n, (0 <= draws g n < 1)%Q.

(** The box the pointer clamp keeps the player in on a 600x400 canvas. *)
Definition in_play_area (p : Player) : Prop :=
  (15 # 1 <= p_x p <= 585 # 1)%Q /\ (15 # 1 <= p_y p <= 385 # 1)%Q.

(** ** Concrete inputs *)

Definition demo_player : Player :=
  mkPlayer "p1" "nft-1" (0 # 1) (0 # 1) 0 100 "#8b5cf6" "Hero".

Definition demo_canvas : Canvas := mkCanvas (300 # 1) (150 # 1) (0 # 1) (0 # 1) true.

(** Every draw is [0.5]: all collectibles land on [(300, 200)]. *)
Definition half_rng : Rng := mkRng (fun _ => (1 # 2)%Q) 0.

Definition demo_arena : Arena := mount demo_player (Some demo_canvas) half_rng.

(** The round started, then the pointer moved onto [(300, 200)]. *)
Definition on_pile : Arena := fst (run [ev_start; ev_move (300 # 1) (200 # 1)] demo_arena).

(** The same, one frame later. *)
Definition after_pile : Arena := fst (step (ev_frame 7) on_pile).

(** Draws [0..39] feed the mount, [40..79] the start, [80..83] the
    replacement: [x = y = 0.5], [type] draw [0.9], [value] draw [0.1]. *)
Definition skew_rng : Rng :=
  mkRng (fun n => if Nat.eqb n 82 then (9 # 10)%Q
                  else if Nat.eqb n 83 then (1 # 10)%Q else (1 # 2)%Q) 0.

Definition skew_on_pile : Arena :=
  fst (run [ev_start; ev_move (300 # 1) (200 # 1)]
           (mount demo_player (Some demo_canvas) skew_rng)).

(** The mounted 600x400 canvas of [demo_arena]. *)
Definition arena_canvas : Canvas := mkCanvas (600 # 1) (400 # 1) (0 # 1) (0 # 1) true.

(** A canvas without a 2D context, in a playing round. *)
Definition blank_canvas : Canvas := mkCanvas (300 # 1) (150 # 1) (0 # 1) (0 # 1) false.

Definition blank_state : Arena := mkArena playing demo_player [] 30 (Some blank_canvas) half_rng.

(** A playing player at [(100, 100)] with one collectible in reach and one
    far away. *)
Definition near_far_state : Arena :=
  mkArena playing (set_pos (100 # 1) (100 # 1) demo_player)
    [mkCollectible (collectible_idx 0) (110 # 1) (100 # 1) powerup 50;
     mkCollectible (collectible_idx 1) (400 # 1) (300 # 1) coin 10]
    30 (Some arena_canvas) half_rng.

(** [on_pile] after 59 timer callbacks: one second left. *)
Definition last_second : Arena := fst (run (repeat ev_timer 59) on_pile).

(** The arena as [Index] mounts it, on a default 300x150 canvas. *)
Definition index_arena : Arena :=
  mount (index_player "nft-1" 0 "#22d3ee" "Ace") (Some demo_canvas) half_rng.

(** ** The Euclidean distance of the source *)

Definition euclid_dist (p : Player) (c : Collectible) : R :=
  sqrt (Rsqr (Q2R (p_x p - c_x c)) + Rsqr (Q2R (p_y p - c_y c))).

Definition value_ok (c : Collectible) : Prop := c_value c = 10 \/ c_value c = 50.

(** The invariant of reachable states. *)
Definition arena_inv (s : Arena) : Prop :=
  (0 <= timeLeft s <= 60) /\ (gameState s = playing -> 0 < timeLeft s) /\
  Forall value_ok (collectibles s).

(** ** Helper lemmas *)

Lemma Qlt_bool_iff (a b : Q) : Qlt_bool a b = true <-> (a < b)%Q.
Proof.
  unfold Qlt_bool. rewrite negb_true_iff. split; intro H.
  - apply Qnot_le_lt. intro H'. apply Qle_bool_iff in H'. congruence.
  - destruct (Qle_bool b a) eqn:E; [|reflexivity].
    apply Qle_bool_iff in E. exfalso. apply (Qlt_not_le a b); assumption.
Qed.

Lemma sqrt_400 : sqrt 400 = 20%R.
Proof.
  replace 400%R with (20 * 20)%R by ring. apply sqrt_square. lra.
Qed.

Lemma within_pickup_dist (p : Player) (c : Collectible) :
  within_pickup p c = true <-> (euclid_dist p c < 20)%R.
Proof.
  unfold within_pickup, euclid_dist. rewrite Qlt_bool_iff.
  set (dx := (p_x p - c_x c)%Q). set (dy := (p_y p - c_y c)%Q).
  assert (Hq : Q2R (dx * dx + dy * dy) = (Rsqr (Q2R dx) + Rsqr (Q2R dy))%R).
  { rewrite Q2R_plus, !Q2R_mult. reflexivity. }
  assert (H400 : Q2R (400 # 1) = 400%R) by (unfold Q2R; simpl; field).
  assert (Hnn : (0 <= Rsqr (Q2R dx) + Rsqr (Q2R dy))%R)
    by (apply Rplus_le_le_0_compat; apply Rle_0_sqr).
  split; intro H.
  - apply Qlt_Rlt in H. rewrite Hq, H400 in H.
    rewrite <- sqrt_400. apply sqrt_lt_1_alt. lra.
  - apply Rlt_Qlt. rewrite Hq, H400. rewrite <- sqrt_400 in H.
    apply sqrt_lt_0_alt in H. exact H.
Qed.

Lemma collect_filter_kept (cur : Player) (cs : list Collectible) :
  forall pending,
  fst (fst (collect_filter cur pending cs))
  = filter (fun c => negb (within_pickup cur c)) cs.
Proof.
  induction cs as [|c rest IH]; intro pending; simpl; [reflexivity|].
  destruct (within_pickup cur c).
  - specialize (IH (set_score (p_score cur + c_value c) pending)).
    destruct (collect_filter cur _ rest) as [[kept pend] ns]. exact IH.
  - specialize (IH pending).
    destruct (collect_filter cur pending rest) as [[kept pend] ns].
    simpl in *. f_equal. exact IH.
Qed.

Lemma spawn_loop_length (n : nat) : forall i g,
  List.length (fst (spawn_loop i n g)) = n.
Proof.
  induction n as [|n IH]; intros i g; [reflexivity|].
  cbn [spawn_loop].
  destruct (new_collectible (collectible_idx i) g) as [c g1].
  specialize (IH (S i) g1). destruct (spawn_loop (S i) n g1) as [cs g2].
  simpl in *. rewrite IH. reflexivity.
Qed.

(** The shape of [checkCollisions]: the surviving collectibles, then at most
    one replacement. *)
Lemma checkCollisions_shape (now : Z) (s : Arena) :
  let kept := filter (fun c => negb (within_pickup (currentPlayer s) c)) (collectibles s) in
  let s' := fst (checkCollisions now s) in
  gameState s' = gameState s /\ timeLeft s' = timeLeft s /\ canvasRef s' = canvasRef s /\
  ((Nat.eqb (List.length kept) (List.length (collectibles s)) = true /\
    collectibles s' = collectibles s) \/
   (Nat.eqb (List.length kept) (List.length (collectibles s)) = false /\
    Nat.ltb (List.length kept) 5 = true /\
    collectibles s' = kept ++ [fst (new_collectible (collectible_time now) (rng s))]) \/
   (Nat.eqb (List.length kept) (List.length (collectibles s)) = false /\
    Nat.ltb (List.length kept) 5 = false /\ collectibles s' = kept)).
Proof.
  intros kept s'. subst s'. unfold checkCollisions.
  pose proof (collect_filter_kept (currentPlayer s) (collectibles s) (currentPlayer s)) as Hk.
  destruct (collect_filter _ _ _) as [[k pend] ns]. simpl in Hk. subst k. fold kept.
  destruct (Nat.eqb (List.length kept) (List.length (collectibles s))) eqn:E1.
  - simpl. auto 10.
  - destruct (Nat.ltb (List.length kept) 5) eqn:E2.
    + destruct (new_collectible _ _) as [c g] eqn:En. simpl. auto 10.
    + simpl. auto 10.
Qed.

Lemma clamp_bounds (lo hi x : Q) :
  (lo <= hi)%Q -> (lo <= Math_max lo (Math_min x hi) <= hi)%Q.
Proof.
  intro Hlh. unfold Math_max, Math_min.
  destruct (Qle_bool x hi) eqn:E1.
  - apply Qle_bool_iff in E1.
    destruct (Qle_bool x lo) eqn:E2.
    + split; [apply Qle_refl | assumption].
    + split; [|assumption]. apply Qlt_le_weak, Qnot_le_lt.
      intro H. apply Qle_bool_iff in H. congruence.
  - destruct (Qle_bool hi lo); split; (assumption || apply Qle_refl).
Qed.

Lemma clamp_room (w : Q) : (30 # 1 <= w)%Q -> (15 # 1 <= w - (15 # 1))%Q.
Proof.
  destruct w as [n d]. unfold Qle, Qminus, Qplus. simpl. lia.
Qed.

Lemma timer_effect_cases (s : Arena) :
  ((timeLeft s =? 0) && phase_eqb (gameState s) playing = true /\
   timer_effect s = (with_phase ended s, [game_end (p_score (currentPlayer s))])) \/
  ((timeLeft s =? 0) && phase_eqb (gameState s) playing = false /\
   timer_effect s = (s, [])).
Proof.
  unfold timer_effect, endGame.
  destruct ((timeLeft s =? 0) && phase_eqb (gameState s) playing); auto.
Qed.

Lemma phase_eqb_true (a b : phase) : phase_eqb a b = true <-> a = b.
Proof. destruct a, b; simpl; split; congruence. Qed.

Lemma new_collectible_value (id : cid) (g : Rng) :
  value_ok (fst (new_collectible id g)).
Proof.
  unfold value_ok, new_collectible. simpl.
  destruct (Qlt_bool (7 # 10) _); auto.
Qed.

Lemma spawn_loop_values (n : nat) : forall i g,
  Forall value_ok (fst (spawn_loop i n g)).
Proof.
  induction n as [|n IH]; intros i g; [constructor|].
  cbn [spawn_loop].
  pose proof (new_collectible_value (collectible_idx i) g) as Hc.
  destruct (new_collectible (collectible_idx i) g) as [c g1].
  specialize (IH (S i) g1). destruct (spawn_loop (S i) n g1) as [cs g2].
  simpl in *. constructor; assumption.
Qed.

Lemma render_ok (s : Arena) : exists d, render s = Ok d.
Proof.
  unfold render. destruct (canvasRef s) as [cv|]; simpl; [|eauto].
  destruct (getContext2d cv); simpl; eauto.
Qed.

Lemma handle_frame (now : Z) (s : Arena) :
  handle (ev_frame now) s =
  if phase_eqb (gameState s) playing then checkCollisions now s else (s, []).
Proof.
  unfold handle, gameLoop. destruct (render_ok s) as [d Hd]. rewrite Hd.
  destruct (checkCollisions now s) as [s1 ns].
  destruct (phase_eqb (gameState s) playing); reflexivity.
Qed.

Lemma checkCollisions_values (now : Z) (s : Arena) :
  Forall value_ok (collectibles s) ->
  Forall value_ok (collectibles (fst (checkCollisions now s))).
Proof.
  intro H.
  assert (Hk : Forall value_ok
                 (filter (fun c => negb (within_pickup (currentPlayer s) c)) (collectibles s))).
  { rewrite Forall_forall in *. intros c Hc. apply filter_In in Hc. apply H, Hc. }
  destruct (checkCollisions_shape now s) as (_ & _ & _ & Hs).
  destruct Hs as [[_ ->] | [[_ [_ ->]] | [_ [_ ->]]]]; auto.
  apply Forall_app. split; [assumption|].
  constructor; [apply new_collectible_value | constructor].
Qed.

Lemma handleMouseMove_keeps (cx cy : Q) (s : Arena) :
  let s1 := handleMouseMove cx cy s in
  gameState s1 = gameState s /\ timeLeft s1 = timeLeft s /\
  collectibles s1 = collectibles s /\ p_score (currentPlayer s1) = p_score (currentPlayer s).
Proof.
  unfold handleMouseMove.
  destruct (negb (phase_eqb (gameState s) playing)); [auto|].
  destruct (canvasRef s); simpl; auto.
Qed.

Lemma timer_effect_keeps (s : Arena) :
  let s2 := fst (timer_effect s) in
  timeLeft s2 = timeLeft s /\ collectibles s2 = collectibles s /\
  currentPlayer s2 = currentPlayer s /\
  (gameState s2 = playing -> gameState s = playing /\ timeLeft s <> 0).
Proof.
  destruct (timer_effect_cases s) as [[C E] | [C E]]; rewrite E; simpl.
  - repeat split; auto; congruence.
  - do 3 (split; [reflexivity|]). intros Hp. split; [exact Hp|].
    rewrite Hp in C. simpl in C.
    rewrite andb_true_r in C. apply Z.eqb_neq. exact C.
Qed.

Lemma handle_inv (e : event) (s : Arena) :
  arena_inv s ->
  let s1 := fst (handle e s) in
  0 <= timeLeft s1 <= 60 /\ Forall value_ok (collectibles s1).
Proof.
  intros (Ht & Hp & Hv). cbv zeta. destruct e as [cx cy | now | |].
  - simpl. destruct (handleMouseMove_keeps cx cy s) as (_ & -> & -> & _). auto.
  - rewrite handle_frame. destruct (phase_eqb (gameState s) playing); [|simpl; auto].
    destruct (checkCollisions_shape now s) as (_ & -> & _ & _).
    split; [assumption|]. apply checkCollisions_values, Hv.
  - unfold handle, timer_scheduled.
    destruct (phase_eqb (gameState s) playing && (0 <? timeLeft s)) eqn:E;
      simpl; [|auto].
    apply andb_true_iff in E. destruct E as [_ E]. apply Z.ltb_lt in E.
    split; [lia | assumption].
  - unfold handle, startGame, spawnCollectibles.
    pose proof (spawn_loop_values 10 0 (rng s)) as Hs.
    change (rng (with_player _ _)) with (rng s).
    destruct (spawn_loop 0 10 (rng s)) as [cs g]. cbn in Hs |- *.
    split; [lia | assumption].
Qed.

Lemma step_inv (e : event) (s : Arena) : arena_inv s -> arena_inv (fst (step e s)).
Proof.
  intro H. pose proof (handle_inv e s H) as (Ht & Hv).
  unfold step. destruct (handle e s) as [s1 ns1]. simpl in *.
  pose proof (timer_effect_keeps s1) as (Ht2 & Hc2 & _ & Hp2).
  destruct (timer_effect s1) as [s2 ns2]. simpl in *.
  unfold arena_inv. rewrite Ht2, Hc2. split; [assumption|]. split; [|assumption].
  intro Hp. apply Hp2 in Hp. lia.
Qed.

Lemma mount_inv (p : Player) (canvas : option Canvas) (g : Rng) :
  arena_inv (mount p canvas g).
Proof.
  unfold mount.
  assert (H0 : arena_inv (mkArena waiting p [] 60 canvas g))
    by (repeat split; simpl; try lia; try discriminate; constructor).
  destruct canvas as [cv|]; [|exact H0].
  destruct (getContext2d cv); [|exact H0].
  unfold spawnCollectibles.
  pose proof (spawn_loop_values 10 0 g) as Hs. cbn [rng].
  destruct (spawn_loop 0 10 g) as [cs g']. cbn in Hs |- *.
  repeat split; try lia; try discriminate; assumption.
Qed.

Lemma reachable_inv (s : Arena) : reachable s -> arena_inv s.
Proof.
  induction 1; [apply mount_inv | apply step_inv; assumption].
Qed.

Lemma reachable_run (es : list event) : forall s,
  reachable s -> reachable (fst (run es s)).
Proof.
  induction es as [|e es IH]; intros s H; simpl; [exact H|].
  pose proof (reach_step s e H) as H1.
  destruct (step e s) as [s1 ns1]. specialize (IH s1 H1).
  destruct (run es s1) as [s2 ns2]. exact IH.
Qed.

(** In an ended round every callback but [startGame] changes nothing and
    notifies nothing. *)
Lemma ended_step (e : event) (s : Arena) :
  gameState s = ended -> e <> ev_start -> step e s = (s, []).
Proof.
  intros He Hne. unfold step.
  assert (Hh : handle e s = (s, [])).
  { destruct e as [cx cy | now | |].
    - unfold handle, handleMouseMove. rewrite He. reflexivity.
    - rewrite handle_frame, He. reflexivity.
    - unfold handle, timer_scheduled. rewrite He. reflexivity.
    - congruence. }
  rewrite Hh. unfold timer_effect. rewrite He, andb_false_r. reflexivity.
Qed.

Lemma step_time (e : event) (s : Arena) :
  timeLeft (fst (step e s)) = timeLeft (fst (handle e s)).
Proof.
  unfold step. destruct (handle e s) as [s1 ns1].
  pose proof (timer_effect_keeps s1) as (Ht & _).
  destruct (timer_effect s1) as [s2 ns2]. exact Ht.
Qed.

Lemma step_collectibles (e : event) (s : Arena) :
  collectibles (fst (step e s)) = collectibles (fst (handle e s)).
Proof.
  unfold step. destruct (handle e s) as [s1 ns1].
  pose proof (timer_effect_keeps s1) as (_ & Hc & _).
  destruct (timer_effect s1) as [s2 ns2]. exact Hc.
Qed.

Lemma step_player (e : event) (s : Arena) :
  currentPlayer (fst (step e s)) = currentPlayer (fst (handle e s)).
Proof.
  unfold step. destruct (handle e s) as [s1 ns1].
  pose proof (timer_effect_keeps s1) as (_ & _ & Hp & _).
  destruct (timer_effect s1) as [s2 ns2]. exact Hp.
Qed.

Lemma handle_time_move_frame (e : event) (s : Arena) :
  e <> ev_timer -> e <> ev_start -> timeLeft (fst (handle e s)) = timeLeft s.
Proof.
  intros H1 H2. destruct e as [cx cy | now | |]; try congruence.
  - simpl. apply (handleMouseMove_keeps cx cy s).
  - rewrite handle_frame. destruct (phase_eqb (gameState s) playing); [|reflexivity].
    apply (checkCollisions_shape now s).
Qed.

Lemma start_fields (s : Arena) :
  let s1 := startGame s in
  gameState s1 = playing /\ timeLeft s1 = 60 /\ p_score (currentPlayer s1) = 0.
Proof.
  unfold startGame, spawnCollectibles.
  change (rng (with_player _ _)) with (rng s).
  destruct (spawn_loop 0 10 (rng s)) as [cs g]. cbn. auto.
Qed.

Lemma collect_filter_score (cur : Player) (cs : list Collectible) :
  Forall value_ok cs -> forall pending,
  p_score cur <= p_score pending ->
  p_score cur <= p_score (snd (fst (collect_filter cur pending cs))).
Proof.
  induction 1 as [|c rest Hc Hrest IH]; intros pending Hle; simpl; [exact Hle|].
  destruct (within_pickup cur c).
  - specialize (IH (set_score (p_score cur + c_value c) pending)).
    destruct (collect_filter cur _ rest) as [[kept pend] ns]. simpl in *.
    apply IH. unfold value_ok in Hc. lia.
  - specialize (IH pending Hle).
    destruct (collect_filter cur pending rest) as [[kept pend] ns]. exact IH.
Qed.

Lemma checkCollisions_player (now : Z) (s : Arena) :
  currentPlayer (fst (checkCollisions now s))
  = snd (fst (collect_filter (currentPlayer s) (currentPlayer s) (collectibles s))).
Proof.
  unfold checkCollisions.
  destruct (collect_filter _ _ _) as [[kept pend] ns]. simpl.
  destruct (Nat.eqb _ _); [reflexivity|].
  destruct (Nat.ltb _ _); [|reflexivity].
  destruct (new_collectible (collectible_time now) (rng s)). reflexivity.
Qed.

Lemma filter_negb_length {A : Type} (f : A -> bool) (l : list A) :
  (List.length (filter (fun x => negb (f x)) l) + List.length (filter f l))%nat
  = List.length l.
Proof.
  induction l as [|a l IH]; [reflexivity|]. simpl.
  destruct (f a); simpl; lia.
Qed.

Lemma step_start_time (s : Arena) : timeLeft (fst (step ev_start s)) = 60.
Proof.
  rewrite step_time. exact (proj1 (proj2 (start_fields s))).
Qed.

Lemma timer_to_zero (s : Arena) :
  gameState s = playing -> 0 < timeLeft s ->
  timeLeft (fst (step ev_timer s)) = 0 ->
  gameState (fst (step ev_timer s)) = ended /\
  snd (step ev_timer s) = [game_end (p_score (currentPlayer s))].
Proof.
  intros Hp Hpos He0.
  assert (Hsch : timer_scheduled s = true).
  { unfold timer_scheduled. rewrite Hp. simpl. apply Z.ltb_lt. exact Hpos. }
  assert (Hh : handle ev_timer s = (timer_fire s, [])).
  { unfold handle. rewrite Hsch. reflexivity. }
  rewrite step_time, Hh in He0. change (timeLeft (timer_fire s) = 0) in He0.
  unfold step. rewrite Hh. unfold timer_effect.
  rewrite He0. change (gameState (timer_fire s)) with (gameState s). rewrite Hp.
  change (p_score (currentPlayer (timer_fire s))) with (p_score (currentPlayer s)).
  split; reflexivity.
Qed.

Lemma on_pile_reachable : reachable on_pile.
Proof. apply reachable_run, reach_mount. Qed.

Lemma last_second_reachable : reachable last_second.
Proof. apply reachable_run, on_pile_reachable. Qed.

(** ** Claims *)

(** C4: one collision-check tick keeps exactly the collectibles whose
    Euclidean center-to-center distance to the player is not below 20, each
    unchanged, and adds at most one replacement after them. *)
Theorem collision_removes_iff_within_20 (now : Z) (s : Arena) :
  let p := currentPlayer s in
  let kept := filter (fun c => negb (within_pickup p c)) (collectibles s) in
  (exists extra, collectibles (fst (checkCollisions now s)) = kept ++ extra /\
                 (List.length extra <= 1)%nat) /\
  (forall c, In c (collectibles s) ->
             (In c kept <-> ~ (euclid_dist p c < 20)%R)).
Proof.
  intros p kept. split.
  - destruct (checkCollisions_shape now s) as (_ & _ & _ & H).
    fold p in H. fold kept in H.
    destruct H as [[E Hc] | [[E1 [E2 Hc]] | [E1 [E2 Hc]]]].
    + exists []. rewrite app_nil_r, Hc. split; [|simpl; lia].
      apply Nat.eqb_eq in E. subst kept.
      clear -E. induction (collectibles s) as [|c cs IH]; [reflexivity|].
      simpl in *. destruct (within_pickup p c); simpl in *.
      * pose proof (filter_length_le (fun c => negb (within_pickup p c)) cs). lia.
      * f_equal. apply IH. lia.
    + eexists. split; [exact Hc|]. simpl. lia.
    + exists []. rewrite app_nil_r. split; [exact Hc | simpl; lia].
  - intros c Hin. subst kept. rewrite filter_In. rewrite <- within_pickup_dist.
    destruct (within_pickup p c); simpl; intuition congruence.
Qed.

(** C5: a pointer move while playing leaves the player inside
    [[15, width-15] x [15, height-15]] of the canvas (with a canvas at least
    30 units wide and high, as the 600x400 arena is). *)
Theorem pointer_move_clamped (s : Arena) (cv : Canvas) (cx cy : Q)
  (Hplay : gameState s = playing) (Hcv : canvasRef s = Some cv)
  (Hw : (30 # 1 <= cv_width cv)%Q) (Hh : (30 # 1 <= cv_height cv)%Q) :
  let s' := fst (step (ev_move cx cy) s) in
  canvasRef s' = Some cv /\
  (15 # 1 <= p_x (currentPlayer s') <= cv_width cv - (15 # 1))%Q /\
  (15 # 1 <= p_y (currentPlayer s') <= cv_height cv - (15 # 1))%Q.
Proof.
  intro s'. subst s'. unfold step, handle, handleMouseMove.
  rewrite Hplay, Hcv. simpl.
  set (s1 := with_player _ s).
  destruct (timer_effect_cases s1) as [[_ E] | [_ E]]; rewrite E; simpl;
    (split; [exact Hcv|]);
    split; apply clamp_bounds.
  all: apply clamp_room; assumption.
Qed.

Lemma pointer_move_clamped_witness :
  gameState on_pile = playing /\ canvasRef on_pile = Some arena_canvas /\
  (15 # 1 <= p_x (currentPlayer (fst (step (ev_move (1000 # 1) ((-5) # 1)) on_pile)))
          <= cv_width arena_canvas - (15 # 1))%Q.
Proof.
  assert (Hp : gameState on_pile = playing) by (vm_compute; reflexivity).
  assert (Hcv : canvasRef on_pile = Some arena_canvas) by (vm_compute; reflexivity).
  split; [exact Hp|]. split; [exact Hcv|].
  destruct (pointer_move_clamped on_pile arena_canvas (1000 # 1) ((-5) # 1) Hp Hcv
              ltac:(unfold Qle; simpl; lia) ltac:(unfold Qle; simpl; lia))
    as (_ & Hx & _).
  exact Hx.
Defined.

(** C6: [startGame], from any state, yields a playing round with score 0,
    60 seconds left and ten freshly spawned collectibles. *)
Theorem startGame_resets (s : Arena) :
  let '(s', ns) := step ev_start s in
  gameState s' = playing /\ p_score (currentPlayer s') = 0 /\ timeLeft s' = 60 /\
  collectibles s' = fst (spawn_loop 0 10 (rng s)) /\
  List.length (collectibles s') = 10%nat /\ ns = [].
Proof.
  unfold step, handle, startGame, spawnCollectibles.
  pose proof (spawn_loop_length 10 0 (rng s)) as Hl.
  change (rng (with_player _ _)) with (rng s).
  destruct (spawn_loop 0 10 (rng s)) as [cs g]. cbn in Hl |- *.
  unfold timer_effect. simpl. auto 7.
Qed.

(** C10: on every reachable state [timeLeft] lies in [[0, 60]]; a timer
    callback decrements it by exactly one when the round is playing and the
    value is positive and leaves it alone otherwise; [startGame] resets it to
    60; no other callback changes it. *)
Theorem timeLeft_bounded (s : Arena) (Hr : reachable s) :
  (0 <= timeLeft s <= 60) /\
  timeLeft (fst (step ev_timer s))
    = (if timer_scheduled s then timeLeft s - 1 else timeLeft s) /\
  timeLeft (fst (step ev_start s)) = 60 /\
  (forall e, e <> ev_timer -> e <> ev_start -> timeLeft (fst (step e s)) = timeLeft s).
Proof.
  destruct (reachable_inv s Hr) as (Ht & _ & _).
  split; [exact Ht|]. split; [|split].
  - rewrite step_time. unfold handle.
    destruct (timer_scheduled s); reflexivity.
  - apply step_start_time.
  - intros e H1 H2. rewrite step_time. apply handle_time_move_frame; assumption.
Qed.

Lemma timeLeft_bounded_witness :
  reachable on_pile /\ timeLeft (fst (step ev_timer on_pile)) = 59.
Proof.
  split; [exact on_pile_reachable|].
  destruct (timeLeft_bounded on_pile on_pile_reachable) as (_ & H & _).
  rewrite H. vm_compute. reflexivity.
Defined.

(** C7: from a reachable playing round, the only callback after which
    [timeLeft] is 0 is the timer; it ends the round and notifies
    [onGameEnd] once, with the current score.  From an ended round, any run
    of callbacks without [startGame] changes nothing and notifies nothing. *)
Theorem round_end_once (s : Arena) (Hr : reachable s) :
  (gameState s = playing -> forall e,
     timeLeft (fst (step e s)) = 0 ->
     e = ev_timer /\ gameState (fst (step e s)) = ended /\
     snd (step e s) = [game_end (p_score (currentPlayer s))]) /\
  (gameState s = ended -> forall es, ~ In ev_start es -> run es s = (s, [])).
Proof.
  destruct (reachable_inv s Hr) as (Ht & Hpos & _). split.
  - intros Hp e He0. specialize (Hpos Hp).
    destruct e as [cx cy | now | |].
    + rewrite step_time, handle_time_move_frame in He0 by discriminate. lia.
    + rewrite step_time, handle_time_move_frame in He0 by discriminate. lia.
    + split; [reflexivity|]. apply timer_to_zero; assumption.
    + rewrite step_start_time in He0. discriminate.
  - intros He es. induction es as [|e es IH]; intro Hn; [reflexivity|].
    cbn [run].
    assert (Hne : e <> ev_start) by (intro; subst; apply Hn; left; reflexivity).
    rewrite (ended_step e s He Hne). cbv beta iota.
    rewrite IH by (intro; apply Hn; right; assumption). reflexivity.
Qed.

Lemma round_end_once_witness :
  reachable last_second /\ gameState last_second = playing /\
  gameState (fst (step ev_timer last_second)) = ended /\
  snd (step ev_timer last_second) = [game_end 0].
Proof.
  split; [exact last_second_reachable|].
  assert (Hp : gameState last_second = playing) by (vm_compute; reflexivity).
  split; [exact Hp|].
  destruct (proj1 (round_end_once last_second last_second_reachable) Hp ev_timer
              ltac:(vm_compute; reflexivity)) as (_ & H1 & H2).
  split; [exact H1|]. rewrite H2. vm_compute. reflexivity.
Defined.

(** C8 (amended): on a reachable state, pointer moves, frames and timer
    callbacks never decrease the score; [startGame] resets it to 0. *)
Theorem score_monotone_except_start (s : Arena) (Hr : reachable s) :
  (forall e, e <> ev_start ->
     p_score (currentPlayer s) <= p_score (currentPlayer (fst (step e s)))) /\
  p_score (currentPlayer (fst (step ev_start s))) = 0.
Proof.
  destruct (reachable_inv s Hr) as (_ & _ & Hv). split.
  - intros e He. rewrite step_player. destruct e as [cx cy | now | |].
    + simpl. rewrite (proj2 (proj2 (proj2 (handleMouseMove_keeps cx cy s)))). lia.
    + rewrite handle_frame. destruct (phase_eqb (gameState s) playing); [|simpl; lia].
      rewrite checkCollisions_player. apply collect_filter_score; [exact Hv | lia].
    + unfold handle. destruct (timer_scheduled s); simpl; lia.
    + congruence.
  - rewrite step_player. apply (start_fields s).
Qed.

Lemma score_monotone_except_start_witness :
  reachable on_pile /\
  p_score (currentPlayer on_pile) <= p_score (currentPlayer after_pile).
Proof.
  split; [exact on_pile_reachable|].
  apply (proj1 (score_monotone_except_start on_pile on_pile_reachable) (ev_frame 7)).
  discriminate.
Defined.

(** C8 counterexample: [startGame] after a pickup takes the score from 10
    back to 0. *)
Lemma score_drops_on_start :
  ~ (forall s e, reachable s ->
       p_score (currentPlayer s) <= p_score (currentPlayer (fst (step e s)))).
Proof.
  intro H.
  assert (Hr : reachable after_pile).
  { apply reach_step. apply reachable_run. apply reach_mount. }
  specialize (H after_pile ev_start Hr).
  assert (H1 : p_score (currentPlayer after_pile) = 10) by (vm_compute; reflexivity).
  assert (H2 : p_score (currentPlayer (fst (step ev_start after_pile))) = 0)
    by (vm_compute; reflexivity).
  lia.
Qed.

(** C2 counterexample: ten collectibles share one spot, the player moves
    there, and one frame removes all ten and spawns a single replacement,
    leaving 1 collectible in a playing round. *)
Lemma collectibles_drop_below_threshold :
  ~ (forall s now, reachable s -> gameState s = playing ->
       (5 <= List.length (collectibles (fst (step (ev_frame now) s))))%nat).
Proof.
  intro H.
  assert (Hr : reachable on_pile) by exact on_pile_reachable.
  assert (Hp : gameState on_pile = playing) by (vm_compute; reflexivity).
  assert (Hn : List.length (collectibles after_pile) = 1%nat)
    by (vm_compute; reflexivity).
  specialize (H on_pile 7 Hr Hp). unfold after_pile in Hn. lia.
Qed.

(** C2 (amended): a frame of a playing round that removes [k] of the [n]
    collectibles leaves [n] when [k = 0], [n - k + 1] when [n - k < 5] and
    [n - k] otherwise; so starting from at least 5 collectibles the count
    stays at least 5 whenever one frame removes at most one collectible. *)
Theorem collectibles_after_tick (now : Z) (s : Arena) (Hp : gameState s = playing) :
  let n := List.length (collectibles s) in
  let k := List.length (filter (within_pickup (currentPlayer s)) (collectibles s)) in
  let n' := List.length (collectibles (fst (step (ev_frame now) s))) in
  n' = (if Nat.eqb k 0 then n else if Nat.ltb (n - k) 5 then n - k + 1 else n - k)%nat /\
  ((5 <= n)%nat -> (k <= 1)%nat -> (5 <= n')%nat).
Proof.
  cbv zeta. rewrite step_collectibles, handle_frame.
  replace (phase_eqb (gameState s) playing) with true by (rewrite Hp; reflexivity).
  cbv beta iota.
  pose proof (filter_negb_length (within_pickup (currentPlayer s)) (collectibles s)) as HL.
  destruct (checkCollisions_shape now s) as (_ & _ & _ & H).
  set (kept := filter (fun c => negb (within_pickup (currentPlayer s) c)) (collectibles s)) in *.
  set (n := List.length (collectibles s)) in *.
  set (k := List.length (filter (within_pickup (currentPlayer s)) (collectibles s))) in *.
  destruct H as [[E Hc] | [[E1 [E2 Hc]] | [E1 [E2 Hc]]]]; rewrite Hc;
    rewrite ?List.length_app; cbn [List.length];
    destruct (Nat.eqb k 0) eqn:Ek; destruct (Nat.ltb (n - k) 5) eqn:El;
    rewrite ?Nat.eqb_eq, ?Nat.eqb_neq, ?Nat.ltb_lt, ?Nat.ltb_ge in *;
    split; intros; lia.
Qed.

Lemma collectibles_after_tick_witness :
  gameState on_pile = playing /\ List.length (collectibles after_pile) = 1%nat.
Proof.
  split; [vm_compute; reflexivity|].
  pose proof (collectibles_after_tick 7 on_pile ltac:(vm_compute; reflexivity)) as H.
  cbv zeta in H. destruct H as [H _]. unfold after_pile. rewrite H.
  vm_compute. reflexivity.
Defined.

(** C9: a frame never throws.  Without a canvas or a 2D context the
    rendering step draws nothing, the collision check still runs and the
    next frame is still requested while playing; with a canvas and a 2D
    context the frame draws the arena again. *)
Theorem frame_without_surface_safe (now : Z) (s : Arena) :
  (exists r, gameLoop now s = Ok r) /\
  ((canvasRef s = None \/ exists cv, canvasRef s = Some cv /\ cv_ctx2d cv = false) ->
   gameLoop now s = Ok (fst (checkCollisions now s), snd (checkCollisions now s), [],
                        phase_eqb (gameState s) playing)) /\
  (forall cv, canvasRef s = Some cv -> cv_ctx2d cv = true ->
   exists d, gameLoop now s =
             Ok (fst (checkCollisions now s), snd (checkCollisions now s),
                 clear_rect (cv_width cv) (cv_height cv) :: d,
                 phase_eqb (gameState s) playing)).
Proof.
  split; [|split].
  - destruct (render_ok s) as [d Hd]. unfold gameLoop. rewrite Hd.
    destruct (checkCollisions now s). eauto.
  - intro Hu. assert (Hr : render s = Ok []).
    { unfold render. destruct Hu as [-> | (cv & -> & Hc)]; [reflexivity|].
      simpl. unfold getContext2d. rewrite Hc. reflexivity. }
    unfold gameLoop. rewrite Hr. destruct (checkCollisions now s). reflexivity.
  - intros cv Hcv Hc. unfold gameLoop, render. rewrite Hcv. simpl.
    unfold getContext2d. rewrite Hc. simpl.
    destruct (checkCollisions now s). eexists. reflexivity.
Qed.

Lemma frame_without_surface_safe_witness :
  (canvasRef blank_state = None \/
   exists cv, canvasRef blank_state = Some cv /\ cv_ctx2d cv = false) /\
  gameLoop 7 blank_state
    = Ok (fst (checkCollisions 7 blank_state), snd (checkCollisions 7 blank_state), [], true).
Proof.
  assert (Hu : canvasRef blank_state = None \/
               exists cv, canvasRef blank_state = Some cv /\ cv_ctx2d cv = false)
    by (right; eexists; split; reflexivity).
  split; [exact Hu|].
  exact (proj1 (proj2 (frame_without_surface_safe 7 blank_state)) Hu).
Defined.

(** C3 (code): after the round starts and the pointer rests on ten
    collectibles worth 10 each, one frame consumes all ten but the score
    becomes 10, not 100: every queued update writes the closure's score plus
    one value, so the last update wins. *)
Theorem multi_pickup_keeps_last_value :
  reachable on_pile /\ gameState on_pile = playing /\
  p_score (currentPlayer on_pile) = 0 /\
  map c_value (filter (within_pickup (currentPlayer on_pile)) (collectibles on_pile))
    = repeat 10 10 /\
  snd (step (ev_frame 7) on_pile) = repeat (score_update 10) 10 /\
  p_score (currentPlayer after_pile) = 10.
Proof.
  split; [apply reachable_run, reach_mount|].
  vm_compute. repeat split; reflexivity.
Qed.

(** C1 (code): the replacement spawned by a frame draws its kind and its
    value from two separate [Math.random()] calls: with a kind draw of 0.9
    and a value draw of 0.1 it is a power-up worth 10. *)
Theorem replenished_powerup_worth_10 :
  reachable skew_on_pile /\ gameState skew_on_pile = playing /\
  List.length (collectibles skew_on_pile) = 10%nat /\
  map (fun c => (c_type c, c_value c)) (collectibles (fst (step (ev_frame 7) skew_on_pile)))
    = [(powerup, 10)].
Proof.
  split; [apply reachable_run, reach_mount|].
  vm_compute. repeat split; reflexivity.
Qed.

(** ** Further properties of the arena and its caller *)

Lemma phase_not_playing (ph : phase) : ph <> playing -> phase_eqb ph playing = false.
Proof. intro H; destruct ph; [reflexivity | congruence | reflexivity]. Qed.

Lemma last_cons_default {A : Type} (l : list A) : forall (a d : A),
  last (a :: l) d = last l a.
Proof.
  induction l as [|b l IH]; intros a d; [reflexivity|].
  change (last (b :: l) d = last (b :: l) a). rewrite !IH. reflexivity.
Qed.

Lemma collect_filter_notes (cur : Player) (cs : list Collectible) : forall pending,
  snd (collect_filter cur pending cs)
  = map (fun c => score_update (p_score cur + c_value c)) (filter (within_pickup cur) cs).
Proof.
  induction cs as [|c rest IH]; intro pending; simpl; [reflexivity|].
  destruct (within_pickup cur c).
  - specialize (IH (set_score (p_score cur + c_value c) pending)).
    destruct (collect_filter cur _ rest) as [[kept pend] ns]. simpl in *. now rewrite IH.
  - specialize (IH pending).
    destruct (collect_filter cur pending rest) as [[kept pend] ns]. exact IH.
Qed.

Lemma collect_filter_player (cur : Player) (cs : list Collectible) : forall pending,
  let pend := snd (fst (collect_filter cur pending cs)) in
  p_score pend
    = last (map (fun c => p_score cur + c_value c) (filter (within_pickup cur) cs))
           (p_score pending) /\
  p_x pend = p_x pending /\ p_y pend = p_y pending.
Proof.
  induction cs as [|c rest IH]; intro pending; [simpl; auto|].
  cbn [collect_filter filter].
  destruct (within_pickup cur c).
  - specialize (IH (set_score (p_score cur + c_value c) pending)).
    destruct (collect_filter cur _ rest) as [[kept pend] ns].
    cbn [map fst snd] in *. rewrite last_cons_default. exact IH.
  - specialize (IH pending).
    destruct (collect_filter cur pending rest) as [[kept pend] ns]. exact IH.
Qed.

Lemma frame_step (now : Z) (s : Arena) :
  gameState s = playing -> timeLeft s <> 0 ->
  step (ev_frame now) s = checkCollisions now s.
Proof.
  intros Hp Ht. unfold step. rewrite handle_frame.
  replace (phase_eqb (gameState s) playing) with true by (rewrite Hp; reflexivity).
  destruct (checkCollisions_shape now s) as (Hg' & Ht' & _).
  destruct (checkCollisions now s) as [s1 ns]. simpl in Hg', Ht'.
  unfold timer_effect. rewrite Ht'.
  replace (timeLeft s =? 0) with false by (symmetry; apply Z.eqb_neq; exact Ht).
  simpl. rewrite app_nil_r. reflexivity.
Qed.

Lemma checkCollisions_notes (now : Z) (s : Arena) :
  snd (checkCollisions now s)
  = map (fun c => score_update (p_score (currentPlayer s) + c_value c))
        (filter (within_pickup (currentPlayer s)) (collectibles s)).
Proof.
  rewrite <- (collect_filter_notes (currentPlayer s) (collectibles s) (currentPlayer s)).
  unfold checkCollisions.
  destruct (collect_filter _ _ _) as [[kept pend] ns]. simpl.
  destruct (Nat.eqb _ _); [reflexivity|].
  destruct (Nat.ltb _ _); [|reflexivity].
  destruct (new_collectible (collectible_time now) (rng s)). reflexivity.
Qed.

Lemma with_player_self (s : Arena) : with_player (currentPlayer s) s = s.
Proof. destruct s; reflexivity. Qed.

Lemma collect_filter_none (cur : Player) (cs : list Collectible) : forall pending,
  Forall (fun c => within_pickup cur c = false) cs ->
  collect_filter cur pending cs = (cs, pending, []).
Proof.
  induction cs as [|c rest IH]; intros pending H; [reflexivity|].
  inversion H as [|? ? Hc Hrest]; subst. simpl. rewrite Hc.
  rewrite (IH pending Hrest). reflexivity.
Qed.

(** X1: while the round is not playing (before the first start, or after
    it ended), every callback except [startGame] leaves the arena unchanged
    and notifies nothing: pointer moves are ignored, and no frame or timer
    callback is pending. *)
Theorem inactive_round_ignores_events (e : event) (s : Arena)
  (Hna : gameState s <> playing) (Hne : e <> ev_start) :
  step e s = (s, []).
Proof.
  pose proof (phase_not_playing _ Hna) as Hf. unfold step.
  assert (Hh : handle e s = (s, [])).
  { destruct e as [cx cy | now | |].
    - unfold handle, handleMouseMove. rewrite Hf. reflexivity.
    - rewrite handle_frame, Hf. reflexivity.
    - unfold handle, timer_scheduled. rewrite Hf. reflexivity.
    - congruence. }
  rewrite Hh. unfold timer_effect. rewrite Hf, andb_false_r. reflexivity.
Qed.

Lemma inactive_round_ignores_events_witness :
  gameState demo_arena <> playing /\ step (ev_move (300 # 1) (200 # 1)) demo_arena = (demo_arena, []).
Proof.
  assert (H : gameState demo_arena <> playing) by (vm_compute; discriminate).
  split; [exact H|].
  exact (inactive_round_ignores_events (ev_move (300 # 1) (200 # 1)) demo_arena H
           ltac:(discriminate)).
Defined.

(** X2: while playing, a pointer position inside the clamp box
    [[15, width-15] x [15, height-15]] (relative to the canvas) puts the
    player exactly there; the move changes nothing but the position and
    notifies nothing (in a round with time left). *)
Theorem pointer_move_tracks_inside (s : Arena) (cv : Canvas) (cx cy : Q)
  (Hplay : gameState s = playing) (Ht : 0 < timeLeft s) (Hcv : canvasRef s = Some cv)
  (Hx : (15 # 1 <= cx - cv_left cv <= cv_width cv - (15 # 1))%Q)
  (Hy : (15 # 1 <= cy - cv_top cv <= cv_height cv - (15 # 1))%Q) :
  let '(s', ns) := step (ev_move cx cy) s in
  (p_x (currentPlayer s') == cx - cv_left cv)%Q /\
  (p_y (currentPlayer s') == cy - cv_top cv)%Q /\
  p_score (currentPlayer s') = p_score (currentPlayer s) /\
  collectibles s' = collectibles s /\ timeLeft s' = timeLeft s /\
  gameState s' = gameState s /\ ns = [].
Proof.
  assert (Hclamp : forall lo hi x, (lo <= x <= hi)%Q -> (Math_max lo (Math_min x hi) == x)%Q).
  { intros lo hi x [H1 H2]. unfold Math_max, Math_min.
    replace (Qle_bool x hi) with true by (symmetry; apply Qle_bool_iff; exact H2).
    destruct (Qle_bool x lo) eqn:E; [|reflexivity].
    apply Qle_bool_iff in E. apply Qle_antisym; assumption. }
  unfold step, handle, handleMouseMove. rewrite Hplay, Hcv. cbv beta iota.
  change (negb (phase_eqb playing playing)) with false. cbv iota.
  unfold timer_effect. simpl timeLeft. simpl gameState. rewrite Hplay.
  replace (timeLeft s =? 0) with false by (symmetry; apply Z.eqb_neq; lia).
  simpl. repeat split; first [reflexivity | now apply Hclamp | now rewrite Hplay].
Qed.

Lemma pointer_move_tracks_inside_witness :
  gameState on_pile = playing /\ canvasRef on_pile = Some arena_canvas /\
  (p_x (currentPlayer (fst (step (ev_move (120 # 1) (80 # 1)) on_pile))) == 120 # 1)%Q.
Proof.
  assert (Hp : gameState on_pile = playing) by (vm_compute; reflexivity).
  assert (Hcv : canvasRef on_pile = Some arena_canvas) by (vm_compute; reflexivity).
  split; [exact Hp|]. split; [exact Hcv|].
  pose proof (pointer_move_tracks_inside on_pile arena_canvas (120 # 1) (80 # 1) Hp
                ltac:(vm_compute; reflexivity) Hcv
                ltac:(unfold Qle; simpl; lia) ltac:(unfold Qle; simpl; lia)) as H.
  destruct (step (ev_move (120 # 1) (80 # 1)) on_pile) as [s' ns].
  destruct H as [Hx _]. rewrite Hx. reflexivity.
Defined.

(** X3: in a playing round with time left, a frame notifies [onScoreUpdate]
    once per consumed collectible, in list order, each time with the score
    the frame started from plus that collectible's value; the player's new
    score is the last of these (the frame's old score when nothing is
    consumed) and the player does not move. *)
Theorem frame_scoring_law (now : Z) (s : Arena)
  (Hp : gameState s = playing) (Ht : 0 < timeLeft s) :
  let cur := currentPlayer s in
  let picked := filter (within_pickup cur) (collectibles s) in
  let '(s', ns) := step (ev_frame now) s in
  ns = map (fun c => score_update (p_score cur + c_value c)) picked /\
  p_score (currentPlayer s')
    = last (map (fun c => p_score cur + c_value c) picked) (p_score cur) /\
  p_x (currentPlayer s') = p_x cur /\ p_y (currentPlayer s') = p_y cur.
Proof.
  cbv zeta. rewrite frame_step by (assumption || lia).
  pose proof (checkCollisions_notes now s) as Hn.
  pose proof (checkCollisions_player now s) as Hpl.
  pose proof (collect_filter_player (currentPlayer s) (collectibles s) (currentPlayer s)) as Hc.
  cbv zeta in Hc. rewrite <- Hpl in Hc.
  destruct (checkCollisions now s) as [s' ns]. cbn [fst snd] in *.
  split; [exact Hn | exact Hc].
Qed.

Lemma frame_scoring_law_witness :
  gameState near_far_state = playing /\ 0 < timeLeft near_far_state /\
  snd (step (ev_frame 7) near_far_state) = [score_update 50].
Proof.
  assert (Hp : gameState near_far_state = playing) by reflexivity.
  assert (Ht : 0 < timeLeft near_far_state) by (vm_compute; reflexivity).
  split; [exact Hp|]. split; [exact Ht|].
  pose proof (frame_scoring_law 7 near_far_state Hp Ht) as H. cbv zeta in H.
  destruct (step (ev_frame 7) near_far_state) as [s' ns].
  destruct H as [Hn _]. rewrite Hn. vm_compute. reflexivity.
Defined.

(** X4: a frame that consumes exactly one collectible [c] raises the score
    by [c]'s value and notifies that new score once. *)
Theorem single_pickup_adds_value (now : Z) (s : Arena) (c : Collectible)
  (Hp : gameState s = playing) (Ht : 0 < timeLeft s)
  (Hone : filter (within_pickup (currentPlayer s)) (collectibles s) = [c]) :
  let '(s', ns) := step (ev_frame now) s in
  p_score (currentPlayer s') = p_score (currentPlayer s) + c_value c /\
  ns = [score_update (p_score (currentPlayer s) + c_value c)].
Proof.
  pose proof (frame_scoring_law now s Hp Ht) as H. cbv zeta in H. rewrite Hone in H.
  destruct (step (ev_frame now) s) as [s' ns].
  destruct H as (Hn & Hs & _). split; assumption.
Qed.

Lemma single_pickup_adds_value_witness :
  filter (within_pickup (currentPlayer near_far_state)) (collectibles near_far_state)
    = [mkCollectible (collectible_idx 0) (110 # 1) (100 # 1) powerup 50] /\
  p_score (currentPlayer (fst (step (ev_frame 7) near_far_state))) = 50.
Proof.
  assert (H1 : filter (within_pickup (currentPlayer near_far_state)) (collectibles near_far_state)
                 = [mkCollectible (collectible_idx 0) (110 # 1) (100 # 1) powerup 50])
    by (vm_compute; reflexivity).
  split; [exact H1|].
  pose proof (single_pickup_adds_value 7 near_far_state _ eq_refl
                ltac:(vm_compute; reflexivity) H1) as H.
  destruct (step (ev_frame 7) near_far_state) as [s' ns].
  destruct H as [Hs _]. simpl fst. rewrite Hs. reflexivity.
Defined.

(** X5: a frame in which no collectible is within reach changes nothing
    (same collectibles, same score, no replacement drawn) and notifies
    nothing. *)
Theorem frame_without_pickup_is_noop (now : Z) (s : Arena)
  (Hp : gameState s = playing) (Ht : 0 < timeLeft s)
  (Hfar : Forall (fun c => within_pickup (currentPlayer s) c = false) (collectibles s)) :
  step (ev_frame now) s = (s, []).
Proof.
  rewrite frame_step by (assumption || lia). unfold checkCollisions.
  rewrite (collect_filter_none _ _ _ Hfar), Nat.eqb_refl, with_player_self.
  reflexivity.
Qed.

Lemma frame_without_pickup_is_noop_witness :
  gameState (fst (step ev_start demo_arena)) = playing /\
  step (ev_frame 7) (fst (step ev_start demo_arena)) = (fst (step ev_start demo_arena), []).
Proof.
  assert (Hp : gameState (fst (step ev_start demo_arena)) = playing)
    by (vm_compute; reflexivity).
  split; [exact Hp|].
  apply frame_without_pickup_is_noop; [exact Hp | vm_compute; reflexivity |].
  vm_compute. repeat constructor.
Defined.

Lemma draw_scaled_bounds (r : Q) (k : positive) :
  (0 <= r < 1)%Q -> (25 # 1 <= r * (Zpos k # 1) + (25 # 1) < Zpos k + 25 # 1)%Q.
Proof.
  destruct r as [n d]. unfold Qle, Qlt, Qmult, Qplus. simpl.
  rewrite ?Pos2Z.inj_mul. intros [H1 H2]. split; nia.
Qed.

Lemma new_collectible_draws (id : cid) (g : Rng) :
  draws (snd (new_collectible id g)) = draws g.
Proof. reflexivity. Qed.

Lemma new_collectible_fields (id : cid) (g : Rng) :
  draws_ok g ->
  c_id (fst (new_collectible id g)) = id /\
  in_arena_bounds (fst (new_collectible id g)) /\ value_ok (fst (new_collectible id g)).
Proof.
  intro Hd. split; [reflexivity|]. split; [|apply new_collectible_value].
  unfold in_arena_bounds, new_collectible, Math_random. cbn [fst c_x c_y draws cursor].
  split; [exact (draw_scaled_bounds _ 550 (Hd _)) | exact (draw_scaled_bounds _ 350 (Hd _))].
Qed.

Lemma spawn_loop_draws (n : nat) : forall i g,
  draws (snd (spawn_loop i n g)) = draws g.
Proof.
  induction n as [|n IH]; intros i g; [reflexivity|].
  cbn [spawn_loop].
  pose proof (new_collectible_draws (collectible_idx i) g) as H1.
  destruct (new_collectible (collectible_idx i) g) as [c g1].
  specialize (IH (S i) g1). destruct (spawn_loop (S i) n g1) as [cs g2].
  simpl in *. congruence.
Qed.

Lemma spawn_loop_fields (n : nat) : forall i g,
  draws_ok g ->
  map c_id (fst (spawn_loop i n g)) = map collectible_idx (seq i n) /\
  Forall (fun c => in_arena_bounds c /\ value_ok c) (fst (spawn_loop i n g)).
Proof.
  induction n as [|n IH]; intros i g Hd; [split; [reflexivity | constructor]|].
  cbn [spawn_loop].
  pose proof (new_collectible_fields (collectible_idx i) g Hd) as (Hid & Hb & Hv).
  pose proof (new_collectible_draws (collectible_idx i) g) as Hdr.
  destruct (new_collectible (collectible_idx i) g) as [c g1]. simpl in Hid, Hb, Hv, Hdr.
  assert (Hd1 : draws_ok g1) by (unfold draws_ok in *; rewrite Hdr; exact Hd).
  specialize (IH (S i) g1 Hd1). destruct (spawn_loop (S i) n g1) as [cs g2].
  simpl in *. destruct IH as [IH1 IH2]. rewrite Hid, IH1.
  split; [reflexivity | constructor; auto].
Qed.

(** X6: with a random source in [[0, 1)], [spawnCollectibles] replaces the
    collectibles by ten new ones with ids [collectible-0] .. [collectible-9],
    each inside [[25, 575) x [25, 375)] and worth 10 or 50, and changes
    nothing else of the round. *)
Theorem spawnCollectibles_fresh (s : Arena) (Hd : draws_ok (rng s)) :
  let s' := spawnCollectibles s in
  map c_id (collectibles s') = map collectible_idx (seq 0 10) /\
  Forall (fun c => in_arena_bounds c /\ value_ok c) (collectibles s') /\
  gameState s' = gameState s /\ currentPlayer s' = currentPlayer s /\
  timeLeft s' = timeLeft s /\ canvasRef s' = canvasRef s.
Proof.
  unfold spawnCollectibles.
  pose proof (spawn_loop_fields 10 0 (rng s) Hd) as H.
  destruct (spawn_loop 0 10 (rng s)) as [cs g]. cbn in H |- *. tauto.
Qed.

Lemma half_rng_ok : draws_ok half_rng.
Proof. intro n. split; unfold Qle, Qlt; simpl; lia. Qed.

Lemma spawnCollectibles_fresh_witness :
  draws_ok (rng demo_arena) /\
  Forall in_arena_bounds (collectibles (spawnCollectibles demo_arena)).
Proof.
  assert (Hd : draws_ok (rng demo_arena)) by exact half_rng_ok.
  split; [exact Hd|].
  destruct (spawnCollectibles_fresh demo_arena Hd) as (_ & H & _).
  eapply Forall_impl; [|exact H]. intros c [Hb _]. exact Hb.
Defined.

Lemma checkCollisions_draws (now : Z) (s : Arena) :
  draws (rng (fst (checkCollisions now s))) = draws (rng s).
Proof.
  unfold checkCollisions.
  destruct (collect_filter _ _ _) as [[kept pend] ns].
  destruct (Nat.eqb _ _); [reflexivity|].
  destruct (Nat.ltb _ _); [|reflexivity].
  pose proof (new_collectible_draws (collectible_time now) (rng s)) as H.
  destruct (new_collectible (collectible_time now) (rng s)) as [c g]. exact H.
Qed.

Lemma handle_draws (e : event) (s : Arena) :
  draws (rng (fst (handle e s))) = draws (rng s).
Proof.
  destruct e as [cx cy | now | |].
  - unfold handle, handleMouseMove. cbn [fst].
    destruct (negb _); [reflexivity|]. destruct (canvasRef s); reflexivity.
  - rewrite handle_frame. destruct (phase_eqb _ _); [apply checkCollisions_draws | reflexivity].
  - unfold handle. destruct (timer_scheduled s); reflexivity.
  - unfold handle, startGame, spawnCollectibles. change (rng (with_player _ _)) with (rng s).
    pose proof (spawn_loop_draws 10 0 (rng s)) as H.
    destruct (spawn_loop 0 10 (rng s)) as [cs g]. exact H.
Qed.

Lemma step_draws (e : event) (s : Arena) :
  draws (rng (fst (step e s))) = draws (rng s).
Proof.
  rewrite <- (handle_draws e s). unfold step.
  destruct (handle e s) as [s1 ns1].
  destruct (timer_effect_cases s1) as [[_ E] | [_ E]]; rewrite E; reflexivity.
Qed.

Lemma step_draws_ok (e : event) (s : Arena) :
  draws_ok (rng s) -> draws_ok (rng (fst (step e s))).
Proof. unfold draws_ok. rewrite step_draws. exact (fun H => H). Qed.

Lemma filter_Forall {A : Type} (P : A -> Prop) (f : A -> bool) (l : list A) :
  Forall P l -> Forall P (filter f l).
Proof.
  rewrite !Forall_forall. intros H x Hx. apply filter_In in Hx. apply H, Hx.
Qed.

Lemma handle_bounds (e : event) (s : Arena) :
  draws_ok (rng s) -> Forall in_arena_bounds (collectibles s) ->
  Forall in_arena_bounds (collectibles (fst (handle e s))).
Proof.
  intros Hd Hb. destruct e as [cx cy | now | |].
  - cbn [handle fst]. destruct (handleMouseMove_keeps cx cy s) as (_ & _ & -> & _). exact Hb.
  - rewrite handle_frame. destruct (phase_eqb _ _); [|exact Hb].
    destruct (checkCollisions_shape now s) as (_ & _ & _ & Hs).
    pose proof (filter_Forall _ (fun c => negb (within_pickup (currentPlayer s) c)) _ Hb) as Hk.
    destruct Hs as [[_ ->] | [[_ [_ ->]] | [_ [_ ->]]]]; [exact Hb | | exact Hk].
    apply Forall_app. split; [exact Hk|].
    constructor; [apply (new_collectible_fields (collectible_time now) (rng s) Hd) | constructor].
  - unfold handle. destruct (timer_scheduled s); exact Hb.
  - unfold handle, startGame, spawnCollectibles. change (rng (with_player _ _)) with (rng s).
    pose proof (spawn_loop_fields 10 0 (rng s) Hd) as [_ H].
    destruct (spawn_loop 0 10 (rng s)) as [cs g]. cbn [fst with_collectibles collectibles].
    eapply Forall_impl; [|exact H]. intros c [Hc _]. exact Hc.
Qed.

Lemma step_bounds (e : event) (s : Arena) :
  draws_ok (rng s) -> Forall in_arena_bounds (collectibles s) ->
  Forall in_arena_bounds (collectibles (fst (step e s))).
Proof.
  intros Hd Hb. rewrite step_collectibles. exact (handle_bounds e s Hd Hb).
Qed.

Lemma mount_draws_bounds (p : Player) (canvas : option Canvas) (g : Rng) :
  draws_ok g ->
  draws (rng (mount p canvas g)) = draws g /\
  Forall in_arena_bounds (collectibles (mount p canvas g)).
Proof.
  intro Hd. unfold mount.
  destruct canvas as [cv|]; [|split; [reflexivity | constructor]].
  destruct (getContext2d cv); [|split; [reflexivity | constructor]].
  unfold spawnCollectibles. cbn [rng].
  pose proof (spawn_loop_fields 10 0 g Hd) as [_ H].
  pose proof (spawn_loop_draws 10 0 g) as Hg.
  destruct (spawn_loop 0 10 g) as [cs g']. cbn in H, Hg |- *. split; [exact Hg|].
  eapply Forall_impl; [|exact H]. intros x [Hx _]. exact Hx.
Qed.

Lemma reach_from_run (s0 : Arena) (es : list event) : forall s,
  reach_from s0 s -> reach_from s0 (fst (run es s)).
Proof.
  induction es as [|e es IH]; intros s H; cbn [run]; [exact H|].
  pose proof (rf_step s0 s e H) as H1.
  destruct (step e s) as [s1 ns1]. specialize (IH s1 H1).
  destruct (run es s1) as [s2 ns2]. exact IH.
Qed.

(** X7: when [Math.random()] returns values in [[0, 1)], every collectible
    of every state reached from a mounted arena lies inside
    [[25, 575) x [25, 375)]: the spawn loop, the replacement drawn in
    [checkCollisions] and the start of a round all place them there, and
    nothing else moves them. *)
Theorem collectibles_stay_in_arena (p : Player) (canvas : option Canvas) (g : Rng) (s : Arena)
  (Hd : draws_ok g) (Hr : reach_from (mount p canvas g) s) :
  Forall in_arena_bounds (collectibles s).
Proof.
  destruct (mount_draws_bounds p canvas g Hd) as [Hg Hb0].
  assert (Hd0 : draws_ok (rng (mount p canvas g))) by (unfold draws_ok; rewrite Hg; exact Hd).
  assert (H : draws_ok (rng s) /\ Forall in_arena_bounds (collectibles s)).
  { induction Hr as [|s e _ [IHd IHb]]; [split; assumption|].
    split; [apply step_draws_ok, IHd | apply step_bounds; assumption]. }
  exact (proj2 H).
Qed.

Lemma collectibles_stay_in_arena_witness :
  draws_ok half_rng /\ Forall in_arena_bounds (collectibles on_pile).
Proof.
  split; [exact half_rng_ok|].
  apply (collectibles_stay_in_arena demo_player (Some demo_canvas) half_rng on_pile half_rng_ok).
  unfold on_pile, demo_arena.
  exact (reach_from_run _ [ev_start; ev_move (300 # 1) (200 # 1)] _ (rf_refl _)).
Defined.

Lemma filter_length_le {A : Type} (f : A -> bool) (l : list A) :
  (List.length (filter f l) <= List.length l)%nat.
Proof.
  induction l as [|a l IH]; [reflexivity|]. simpl. destruct (f a); simpl; lia.
Qed.

Lemma handle_count (e : event) (s : Arena) :
  (List.length (collectibles s) <= 10)%nat ->
  (gameState s <> waiting -> (1 <= List.length (collectibles s))%nat) ->
  let s1 := fst (handle e s) in
  (List.length (collectibles s1) <= 10)%nat /\
  (gameState s1 <> waiting -> (1 <= List.length (collectibles s1))%nat).
Proof.
  intros H10 H1. cbv zeta. destruct e as [cx cy | now | |].
  - cbn [handle fst]. destruct (handleMouseMove_keeps cx cy s) as (-> & _ & -> & _). auto.
  - rewrite handle_frame. destruct (phase_eqb (gameState s) playing) eqn:Ep; [|auto].
    apply phase_eqb_true in Ep.
    destruct (checkCollisions_shape now s) as (-> & _ & _ & Hs).
    pose proof (filter_length_le (fun c => negb (within_pickup (currentPlayer s) c))
                  (collectibles s)) as Hle.
    destruct Hs as [[_ ->] | [[_ [E ->]] | [_ [E ->]]]]; [auto | |].
    + apply Nat.ltb_lt in E. rewrite length_app. simpl. split; [lia | intros; lia].
    + apply Nat.ltb_ge in E. split; [lia | intros; lia].
  - unfold handle. destruct (timer_scheduled s); auto.
  - unfold handle, startGame, spawnCollectibles. change (rng (with_player _ _)) with (rng s).
    pose proof (spawn_loop_length 10 0 (rng s)) as H.
    destruct (spawn_loop 0 10 (rng s)) as [cs g]. cbn in H |- *. rewrite H. split; [lia | intros; lia].
Qed.

(** X8: in every reachable state the arena holds at most ten collectibles,
    and once a round has been started (the state is no longer ['waiting'])
    it holds at least one: a frame that consumes collectibles either keeps
    five or more or adds a replacement. *)
Theorem collectible_count_bounds (s : Arena) (Hr : reachable s) :
  (List.length (collectibles s) <= 10)%nat /\
  (gameState s <> waiting -> (1 <= List.length (collectibles s))%nat).
Proof.
  induction Hr as [p canvas g | s e _ [IH10 IH1]].
  - unfold mount. destruct canvas as [cv|]; [|cbn; split; [lia | congruence]].
    destruct (getContext2d cv); [|cbn; split; [lia | congruence]].
    unfold spawnCollectibles. cbn [rng].
    pose proof (spawn_loop_length 10 0 g) as H.
    destruct (spawn_loop 0 10 g) as [cs g']. cbn in H |- *. rewrite H. split; [lia | congruence].
  - pose proof (handle_count e s IH10 IH1) as [H10 H1]. cbv zeta in H10, H1.
    rewrite step_collectibles. split; [exact H10|]. intro Hw. apply H1.
    unfold step in Hw. destruct (handle e s) as [s1 ns1]. cbn [fst] in Hw |- *.
    destruct (timer_effect_cases s1) as [[C E] | [_ E]]; rewrite E in Hw; cbn in Hw.
    + apply andb_true_iff in C. destruct C as [_ C]. apply phase_eqb_true in C.
      rewrite C. discriminate.
    + exact Hw.
Qed.

Lemma collectible_count_bounds_witness :
  reachable last_second /\ (List.length (collectibles last_second) <= 10)%nat.
Proof.
  split; [exact last_second_reachable|].
  exact (proj1 (collectible_count_bounds last_second last_second_reachable)).
Defined.

Lemma with_time_twice (t u : Z) (s : Arena) : with_time t (with_time u s) = with_time t s.
Proof. destruct s; reflexivity. Qed.

Lemma with_time_same (s : Arena) : with_time (timeLeft s) s = s.
Proof. destruct s; reflexivity. Qed.

Lemma step_timer_tick (s : Arena) :
  gameState s = playing -> 1 < timeLeft s ->
  step ev_timer s = (with_time (timeLeft s - 1) s, []).
Proof.
  intros Hp Ht. unfold step, handle, timer_scheduled. rewrite Hp.
  replace (0 <? timeLeft s) with true by (symmetry; apply Z.ltb_lt; lia).
  unfold timer_fire, timer_effect. cbn [phase_eqb andb timeLeft gameState with_time].
  rewrite Hp.
  replace (timeLeft s - 1 =? 0) with false by (symmetry; apply Z.eqb_neq; lia).
  reflexivity.
Qed.

Lemma step_timer_last (s : Arena) :
  gameState s = playing -> timeLeft s = 1 ->
  step ev_timer s = (with_phase ended (with_time 0 s), [game_end (p_score (currentPlayer s))]).
Proof.
  intros Hp Ht. unfold step, handle, timer_scheduled. rewrite Hp, Ht.
  unfold timer_fire, timer_effect, endGame. cbn [phase_eqb andb timeLeft gameState with_time].
  cbn. rewrite ?Hp, ?Ht. reflexivity.
Qed.

Lemma timer_ticks (k : nat) : forall s,
  gameState s = playing -> Z.of_nat k < timeLeft s ->
  run (repeat ev_timer k) s = (with_time (timeLeft s - Z.of_nat k) s, []).
Proof.
  induction k as [|k IH]; intros s Hp Ht.
  - cbn [run repeat]. rewrite Z.sub_0_r, with_time_same. reflexivity.
  - cbn [run repeat]. rewrite (step_timer_tick s Hp) by lia. cbv iota beta.
    rewrite (IH (with_time (timeLeft s - 1) s) Hp) by (cbn [timeLeft with_time]; lia).
    rewrite with_time_twice. cbn [timeLeft with_time app].
    replace (timeLeft s - 1 - Z.of_nat k) with (timeLeft s - Z.of_nat (S k)) by lia.
    reflexivity.
Qed.

Lemma timer_ticks_out (k : nat) : forall s,
  gameState s = playing -> timeLeft s = Z.of_nat (S k) ->
  run (repeat ev_timer (S k)) s
  = (with_phase ended (with_time 0 s), [game_end (p_score (currentPlayer s))]).
Proof.
  induction k as [|k IH]; intros s Hp Ht.
  - cbn [run repeat]. rewrite (step_timer_last s Hp) by (simpl in Ht; exact Ht). reflexivity.
  - change (repeat ev_timer (S (S k))) with (ev_timer :: repeat ev_timer (S k)).
    cbn [run]. rewrite (step_timer_tick s Hp) by lia. cbv iota beta.
    rewrite (IH (with_time (timeLeft s - 1) s) Hp) by (cbn [timeLeft with_time]; lia).
    rewrite with_time_twice. reflexivity.
Qed.

Lemma step_start_eq (s : Arena) : step ev_start s = (startGame s, []).
Proof.
  unfold step, handle. cbv iota beta.
  destruct (start_fields s) as (_ & Ht & _).
  unfold timer_effect. rewrite Ht. reflexivity.
Qed.

(** X9: in a playing round with [n > 0] seconds left and no other callback,
    each of the first [n - 1] timer callbacks takes one second off and
    notifies nothing, and the [n]-th ends the round at [0] with one
    [onGameEnd] call carrying the score. *)
Theorem timer_countdown (n : nat) (s : Arena)
  (Hp : gameState s = playing) (Ht : timeLeft s = Z.of_nat n) (Hn : (0 < n)%nat) :
  (forall k, (k < n)%nat ->
     run (repeat ev_timer k) s = (with_time (timeLeft s - Z.of_nat k) s, [])) /\
  run (repeat ev_timer n) s
  = (with_phase ended (with_time 0 s), [game_end (p_score (currentPlayer s))]).
Proof.
  split.
  - intros k Hk. apply timer_ticks; [exact Hp | lia].
  - destruct n as [|m]; [lia|]. apply timer_ticks_out; assumption.
Qed.

Lemma timer_countdown_witness :
  gameState on_pile = playing /\ timeLeft on_pile = Z.of_nat 60 /\
  snd (run (repeat ev_timer 60) on_pile) = [game_end 0].
Proof.
  assert (Hp : gameState on_pile = playing) by (vm_compute; reflexivity).
  assert (Ht : timeLeft on_pile = Z.of_nat 60) by (vm_compute; reflexivity).
  split; [exact Hp|]. split; [exact Ht|].
  rewrite (proj2 (timer_countdown 60 on_pile Hp Ht ltac:(lia))).
  vm_compute. reflexivity.
Defined.

(** X10: a round started with [startGame] and left alone lasts exactly sixty
    timer callbacks: after them the state is the started one with
    [timeLeft = 0] and phase ['ended'], and the only notification is
    [onGameEnd(0)], the score having been reset by the start. *)
Theorem round_lasts_sixty_ticks (s : Arena) :
  let s1 := startGame s in
  run (ev_start :: repeat ev_timer 60) s = (with_phase ended (with_time 0 s1), [game_end 0]).
Proof.
  cbv zeta. cbn [run]. rewrite step_start_eq. cbv iota beta.
  destruct (start_fields s) as (Hp & Ht & Hs).
  rewrite (timer_ticks_out 59 (startGame s) Hp) by (rewrite Ht; reflexivity).
  rewrite Hs. reflexivity.
Qed.

Lemma handle_canvas (e : event) (s : Arena) : canvasRef (fst (handle e s)) = canvasRef s.
Proof.
  destruct e as [cx cy | now | |].
  - unfold handle, handleMouseMove. cbn [fst].
    destruct (negb _); [reflexivity|]. destruct (canvasRef s) eqn:E; exact E.
  - rewrite handle_frame. destruct (phase_eqb _ _); [apply checkCollisions_shape | reflexivity].
  - unfold handle. destruct (timer_scheduled s); reflexivity.
  - unfold handle, startGame, spawnCollectibles. change (rng (with_player _ _)) with (rng s).
    destruct (spawn_loop 0 10 (rng s)) as [cs g]. reflexivity.
Qed.

Lemma step_canvas (e : event) (s : Arena) : canvasRef (fst (step e s)) = canvasRef s.
Proof.
  rewrite <- (handle_canvas e s). unfold step.
  destruct (handle e s) as [s1 ns1].
  destruct (timer_effect_cases s1) as [[_ E] | [_ E]]; rewrite E; reflexivity.
Qed.

Lemma clamp_box (x w hi : Q) :
  (30 # 1 <= w)%Q -> (w - (15 # 1) <= hi)%Q ->
  (15 # 1 <= Math_max (15 # 1) (Math_min x (w - (15 # 1))) <= hi)%Q.
Proof.
  intros Hw Hhi.
  destruct (clamp_bounds (15 # 1) _ x (clamp_room w Hw)) as [H1 H2].
  split; [exact H1 | eapply Qle_trans; eassumption].
Qed.

Lemma handle_play_area (e : event) (s : Arena) (cv : Canvas) :
  canvasRef s = Some cv -> cv_width cv = 600 # 1 -> cv_height cv = 400 # 1 ->
  in_play_area (currentPlayer s) -> in_play_area (currentPlayer (fst (handle e s))).
Proof.
  intros Hcv Hw Hh Hin. destruct e as [cx cy | now | |].
  - unfold handle, handleMouseMove. cbn [fst].
    destruct (negb _); [exact Hin|]. rewrite Hcv.
    unfold in_play_area. cbn [with_player currentPlayer set_pos p_x p_y].
    rewrite Hw, Hh.
    split; apply clamp_box; unfold Qle; simpl; lia.
  - rewrite handle_frame. destruct (phase_eqb _ _); [|exact Hin].
    rewrite checkCollisions_player.
    destruct (collect_filter_player (currentPlayer s) (collectibles s) (currentPlayer s))
      as (_ & Hx & Hy).
    unfold in_play_area in *. rewrite Hx, Hy. exact Hin.
  - unfold handle. destruct (timer_scheduled s); exact Hin.
  - unfold handle, startGame, spawnCollectibles. change (rng (with_player _ _)) with (rng s).
    destruct (spawn_loop 0 10 (rng s)) as [cs g]. exact Hin.
Qed.

(** X11: on the canvas [Index] renders (one with a 2D context), the player
    [Index] passes in at [(300, 200)] stays inside [[15, 585] x [15, 385]]
    in every state of the arena: the mount effect sizes the canvas to
    600x400 once, pointer moves clamp to it, and nothing else moves the
    player. *)
Theorem player_stays_in_play_area (nftId color name : string) (score : Z) (cv : Canvas)
  (g : Rng) (s : Arena) (Hctx : cv_ctx2d cv = true)
  (Hr : reach_from (mount (index_player nftId score color name) (Some cv) g) s) :
  in_play_area (currentPlayer s).
Proof.
  set (cv' := mkCanvas (600 # 1) (400 # 1) (cv_left cv) (cv_top cv) (cv_ctx2d cv)).
  assert (H0 : canvasRef (mount (index_player nftId score color name) (Some cv) g) = Some cv' /\
               in_play_area (currentPlayer (mount (index_player nftId score color name) (Some cv) g))).
  { unfold mount.
    replace (getContext2d cv) with (Some (mkCtx2D cv))
      by (unfold getContext2d; rewrite Hctx; reflexivity).
    unfold spawnCollectibles. cbn [rng].
    destruct (spawn_loop 0 10 g) as [cs g']. cbn.
    split; [reflexivity|]. unfold in_play_area; simpl; unfold Qle; simpl; lia. }
  assert (H : canvasRef s = Some cv' /\ in_play_area (currentPlayer s)).
  { induction Hr as [|s e _ [IHc IHp]]; [exact H0|].
    rewrite step_canvas, step_player. split; [exact IHc|].
    exact (handle_play_area e s cv' IHc eq_refl eq_refl IHp). }
  exact (proj2 H).
Qed.

Lemma player_stays_in_play_area_witness :
  cv_ctx2d demo_canvas = true /\
  in_play_area (currentPlayer (fst (run [ev_start; ev_move (900 # 1) (900 # 1)] index_arena))).
Proof.
  split; [reflexivity|].
  apply (player_stays_in_play_area "nft-1" "#22d3ee" "Ace" 0 demo_canvas half_rng _ eq_refl).
  exact (reach_from_run _ [ev_start; ev_move (900 # 1) (900 # 1)] _ (rf_refl _)).
Defined.

Lemma substring_length_le (s : string) : forall n m,
  (String.length (substring n m s) <= m)%nat.
Proof.
  induction s as [|c s IH]; intros n m; destruct n, m; simpl; try lia.
  - specialize (IH 0%nat m). lia.
  - apply IH.
  - apply IH.
Qed.

Lemma zeros_length (n : nat) : String.length (zeros n) = n.
Proof. induction n as [|n IH]; simpl; [reflexivity | now rewrite IH]. Qed.

Lemma str_append_length (a b : string) :
  String.length (a ++ b) = (String.length a + String.length b)%nat.
Proof. induction a as [|c a IH]; simpl; [reflexivity | now rewrite IH]. Qed.

Lemma floor_scaled (r : Q) (k : positive) :
  (0 <= r < 1)%Q -> (0 <= Math_floor (r * (Zpos k # 1)) < Zpos k)%Z.
Proof.
  intros Hr. unfold Math_floor.
  assert (H0 : (0 <= r * (Zpos k # 1))%Q /\ (r * (Zpos k # 1) < inject_Z (Zpos k))%Q).
  { destruct r as [n d]. unfold Qle, Qlt, Qmult, inject_Z in *. simpl in *.
    destruct Hr as [H1 H2]. pose proof (Pos2Z.is_pos k). split; nia. }
  destruct H0 as [H1 H2].
  pose proof (Qfloor_le (r * (Zpos k # 1))) as Hle.
  pose proof (Qlt_floor (r * (Zpos k # 1))) as Hlt.
  split.
  - assert (H : (inject_Z 0 < inject_Z (Qfloor (r * (Zpos k # 1)) + 1))%Q)
      by (eapply Qle_lt_trans; [exact H1 | exact Hlt]).
    rewrite <- Zlt_Qlt in H. lia.
  - rewrite Zlt_Qlt. eapply Qle_lt_trans; [exact Hle | exact H2].
Qed.

(** X12: [createTransaction] never throws: [substring(2, 15)] keeps at most
    13 characters, so ['0'.repeat(64 - baseHash.length)] gets a
    non-negative count and the default hash is ["0x"] followed by 64
    characters.  With [Math.random()] in [[0, 1)] the default [gasUsed] lies in
    [[21000, 121000)] and the default [blockNumber] in
    [[18000000, 19000000)]; every key of [options] overrides its default. *)
Theorem createTransaction_defaults (toString36 : Q -> string) (type : tx_type)
  (details : string) (opts : TxOptions) (now : Z) (g : Rng) (Hd : draws_ok g) :
  exists tx g' body gas block,
    createTransaction toString36 type details opts now g = Ok (tx, g') /\
    String.length body = 64%nat /\
    21000 <= gas < 121000 /\ 18000000 <= block < 19000000 /\
    tx_hash tx = spread (o_hash opts) ("0x" ++ body)%string /\
    tx_gasUsed tx = spread_opt (o_gasUsed opts) (Some gas) /\
    tx_blockNumber tx = spread_opt (o_blockNumber opts) (Some block) /\
    tx_kind tx = spread (o_kind opts) type /\
    tx_state tx = spread (o_state opts) tx_pending /\
    tx_id tx = spread (o_id opts) now /\ tx_timestamp tx = spread (o_timestamp opts) now /\
    tx_details tx = spread (o_details opts) details.
Proof.
  unfold createTransaction, Math_random. cbv beta iota zeta. cbn [draws cursor].
  set (b := substring 2 13 (toString36 (draws g (cursor g)))).
  assert (Hb : (String.length b <= 13)%nat) by apply substring_length_le.
  replace (64 - Z.of_nat (String.length b) <? 0) with false
    by (symmetry; apply Z.ltb_ge; lia).
  do 2 eexists. exists (b ++ zeros (Z.to_nat (64 - Z.of_nat (String.length b))))%string.
  exists (Math_floor (draws g (S (cursor g)) * (100000 # 1)) + 21000),
    (Math_floor (draws g (S (S (cursor g))) * (1000000 # 1)) + 18000000).
  split; [reflexivity|].
  split.
  { rewrite str_append_length, zeros_length. clear -Hb. clearbody b. lia. }
  pose proof (floor_scaled _ 100000 (Hd (S (cursor g)))) as Hg.
  pose proof (floor_scaled _ 1000000 (Hd (S (S (cursor g))))) as Hbk.
  split; [lia|]. split; [lia|]. repeat split.
Qed.

Lemma createTransaction_defaults_witness :
  draws_ok half_rng /\
  exists tx g', createTransaction (fun _ => "0.i"%string) tx_mint "Minted"%string no_options 5
                  half_rng = Ok (tx, g') /\ String.length (tx_hash tx) = 66%nat.
Proof.
  split; [exact half_rng_ok|].
  destruct (createTransaction_defaults (fun _ => "0.i"%string) tx_mint "Minted"%string no_options
              5 half_rng half_rng_ok)
    as (tx & g' & body & gas & block & E & Hl & _ & _ & Hh & _).
  exists tx, g'. split; [exact E|]. rewrite Hh. cbn [spread o_hash no_options String.length].
  rewrite str_append_length, Hl. reflexivity.
Defined.

Lemma createTransaction_eq (toString36 : Q -> string) (type : tx_type) (details : string)
  (opts : TxOptions) (now : Z) (g : Rng) :
  let b := substring 2 13 (toString36 (draws g (cursor g))) in
  createTransaction toString36 type details opts now g =
  Ok (mkTransaction (spread (o_id opts) now) (spread (o_kind opts) type)
        (spread (o_state opts) tx_pending)
        (spread (o_hash opts)
           ("0x" ++ b ++ zeros (Z.to_nat (64 - Z.of_nat (String.length b))))%string)
        (spread_opt (o_from opts) None) (spread_opt (o_to opts) None)
        (spread_opt (o_amount opts) None) (spread_opt (o_currency opts) None)
        (spread_opt (o_gasUsed opts)
           (Some (Math_floor (draws g (S (cursor g)) * (100000 # 1)) + 21000)))
        (spread (o_timestamp opts) now)
        (spread_opt (o_blockNumber opts)
           (Some (Math_floor (draws g (S (S (cursor g))) * (1000000 # 1)) + 18000000)))
        (spread (o_details opts) details),
      mkRng (draws g) (S (S (S (cursor g))))).
Proof.
  cbv zeta. unfold createTransaction, Math_random. cbv beta iota zeta. cbn [draws cursor].
  pose proof (substring_length_le (toString36 (draws g (cursor g))) 2 13) as Hb.
  replace (64 - Z.of_nat (String.length (substring 2 13 (toString36 (draws g (cursor g))))) <? 0)
    with false by (symmetry; apply Z.ltb_ge; lia).
  reflexivity.
Qed.

Lemma padded_hash_length (x : string) :
  String.length ("0x" ++ substring 2 13 x
                 ++ zeros (Z.to_nat (64 - Z.of_nat (String.length (substring 2 13 x)))))%string
  = 66%nat.
Proof.
  pose proof (substring_length_le x 2 13) as Hb.
  cbn [append String.length]. rewrite str_append_length, zeros_length. lia.
Qed.

(** X13: [handleGameEnd] records a high score only when it is positive.  A
    score of [0] or less changes nothing and draws nothing.  A positive
    score never throws; it opens the modal on a new pending ['leaderboard']
    transaction for [finalScore * 0.001] ENDLESS with the details text of
    the source and a 66-character hash, adds [finalScore * 0.1] to the
    earnings, and leaves the displayed score alone. *)
Theorem handleGameEnd_records (toString36 : Q -> string) (finalScore now : Z) (g : Rng)
  (idx : IndexState) :
  (finalScore <= 0 /\ handleGameEnd toString36 finalScore now g idx = Ok (idx, g)) \/
  (0 < finalScore /\
   exists tx g',
     handleGameEnd toString36 finalScore now g idx
     = Ok (mkIndex (currentScore idx) (totalEarnings idx + (finalScore # 1) * (1 # 10))%Q
             true (Some tx), g') /\
     tx_kind tx = tx_leaderboard /\ tx_state tx = tx_pending /\
     tx_amount tx = Some ((finalScore # 1) * (1 # 1000))%Q /\
     tx_currency tx = Some "ENDLESS"%string /\
     tx_details tx = ("Recorded high score of " ++ Z_to_string finalScore
                      ++ " points on leaderboard")%string /\
     tx_id tx = now /\ tx_timestamp tx = now /\ String.length (tx_hash tx) = 66%nat).
Proof.
  unfold handleGameEnd. destruct (0 <? finalScore) eqn:E.
  - right. apply Z.ltb_lt in E. split; [exact E|].
    rewrite createTransaction_eq. cbv zeta.
    do 2 eexists. split; [reflexivity|].
    cbn [tx_kind tx_state tx_amount tx_currency tx_details tx_id tx_timestamp tx_hash
         leaderboard_options spread spread_opt o_kind o_state o_amount o_currency o_details
         o_id o_timestamp o_hash].
    repeat split. apply padded_hash_length.
  - left. apply Z.ltb_ge in E. split; [exact E | reflexivity].
Qed.

(** X14: the [setTimeout] callback of [showTransaction] shows the
    transaction its closure captured, confirmed and with a new block number
    in [[18000000, 19000000)] (for [Math.random()] in [[0, 1)]), whatever
    the modal shows at that time; all other fields of the transaction and the
    page's score and earnings are kept. *)
Theorem confirm_shows_captured_tx (tx : Transaction) (g : Rng) (idx : IndexState)
  (Hd : draws_ok g) :
  let '(idx', g') := confirmTransaction tx g idx in
  modalOpen idx' = true /\ currentScore idx' = currentScore idx /\
  totalEarnings idx' = totalEarnings idx /\
  exists block,
    modalTx idx' = Some (mkTransaction (tx_id tx) (tx_kind tx) tx_confirmed (tx_hash tx)
                           (tx_from tx) (tx_to tx) (tx_amount tx) (tx_currency tx)
                           (tx_gasUsed tx) (tx_timestamp tx) (Some block) (tx_details tx)) /\
    18000000 <= block < 19000000.
Proof.
  unfold confirmTransaction, Math_random. cbv beta iota zeta. cbn [modalOpen currentScore
    totalEarnings modalTx].
  pose proof (floor_scaled _ 1000000 (Hd (cursor g))) as Hb.
  split; [reflexivity|]. split; [reflexivity|]. split; [reflexivity|].
  eexists. split; [reflexivity | lia].
Qed.

Lemma confirm_shows_captured_tx_witness :
  draws_ok half_rng /\
  exists block,
    modalTx (fst (confirmTransaction
                    (mkTransaction 1 tx_leaderboard tx_pending "0x"%string None None None None
                       None 1 None "first"%string) half_rng
                    (mkIndex 0 0 true
                       (Some (mkTransaction 2 tx_leaderboard tx_pending "0x"%string None None
                                None None None 2 None "second"%string)))))
    = Some (mkTransaction 1 tx_leaderboard tx_confirmed "0x"%string None None None None None 1
              (Some block) "first"%string) /\ 18000000 <= block < 19000000.
Proof.
  split; [exact half_rng_ok|].
  pose proof (confirm_shows_captured_tx
                (mkTransaction 1 tx_leaderboard tx_pending "0x"%string None None None None
                   None 1 None "first"%string) half_rng
                (mkIndex 0 0 true
                   (Some (mkTransaction 2 tx_leaderboard tx_pending "0x"%string None None
                            None None None 2 None "second"%string))) half_rng_ok) as H.
  destruct (confirmTransaction _ _ _) as [idx' g'].
  destruct H as (_ & _ & _ & block & Hm & Hb). exists block. split; [exact Hm | exact Hb].
Defined.

Lemma last_default_irrel {A : Type} (l : list A) (d d' : A) :
  l <> [] -> last l d = last l d'.
Proof.
  induction l as [|a l IH]; intro H; [congruence|].
  destruct l as [|b l]; [reflexivity|]. apply IH. discriminate.
Qed.

Lemma index_on_score_updates (toString36 : Q -> string) (now : Z) (l : list Z) :
  forall idx g,
  index_on_notes toString36 now (map score_update l) (idx, g)
  = Ok (match l with [] => idx | _ => handleScoreUpdate (last l 0) idx end, g).
Proof.
  induction l as [|k l IH]; intros idx g; [reflexivity|].
  cbn [map index_on_notes index_on_note]. rewrite IH.
  destruct l as [|k' l]; [reflexivity|].
  change (last (k :: k' :: l) 0) with (last (k' :: l) 0). reflexivity.
Qed.

(** X15: the score [Index] displays follows the arena: after a frame of a
    playing round (with time left) that consumes at least one collectible,
    feeding the frame's [onScoreUpdate] calls to [handleScoreUpdate] in
    order leaves the page's [currentScore] equal to the arena's new player
    score, and changes nothing else of the page. *)
Theorem parent_score_follows_frame (toString36 : Q -> string) (now : Z) (g : Rng)
  (idx : IndexState) (s : Arena)
  (Hp : gameState s = playing) (Ht : 0 < timeLeft s)
  (Hpick : filter (within_pickup (currentPlayer s)) (collectibles s) <> []) :
  let '(s', ns) := step (ev_frame now) s in
  index_on_notes toString36 now ns (idx, g)
  = Ok (handleScoreUpdate (p_score (currentPlayer s')) idx, g).
Proof.
  rewrite frame_step by (assumption || lia).
  pose proof (checkCollisions_notes now s) as Hn.
  pose proof (checkCollisions_player now s) as Hpl.
  pose proof (collect_filter_player (currentPlayer s) (collectibles s) (currentPlayer s))
    as (Hsc & _ & _).
  rewrite <- Hpl in Hsc.
  destruct (checkCollisions now s) as [s' ns]. cbn [fst snd] in *. subst ns.
  rewrite <- (map_map (fun c => p_score (currentPlayer s) + c_value c) score_update).
  rewrite index_on_score_updates, Hsc.
  destruct (filter (within_pickup (currentPlayer s)) (collectibles s)) as [|c cs] eqn:E;
    [congruence|].
  cbn [map]. f_equal. f_equal. f_equal. apply last_default_irrel. discriminate.
Qed.

Lemma parent_score_follows_frame_witness :
  filter (within_pickup (currentPlayer near_far_state)) (collectibles near_far_state) <> [] /\
  index_on_notes (fun _ => EmptyString) 7 (snd (step (ev_frame 7) near_far_state))
    (mkIndex 0 0 false None, half_rng)
  = Ok (mkIndex 50 0 false None, half_rng).
Proof.
  assert (H1 : filter (within_pickup (currentPlayer near_far_state))
                 (collectibles near_far_state) <> []) by (vm_compute; discriminate).
  split; [exact H1|].
  pose proof (parent_score_follows_frame (fun _ => EmptyString) 7 half_rng
                (mkIndex 0 0 false None) near_far_state eq_refl
                ltac:(vm_compute; reflexivity) H1) as H.
  destruct (step (ev_frame 7) near_far_state) as [s' ns] eqn:E.
  cbn [snd]. rewrite H. f_equal. f_equal.
  replace s' with (fst (step (ev_frame 7) near_far_state)) by (rewrite E; reflexivity).
  vm_compute. reflexivity.
Defined.

(** X16: a round started and left to run out without any pickup costs the
    page nothing: the arena's only notification is [onGameEnd(0)], which
    [handleGameEnd] ignores, so the page state and the random source are
    unchanged (no transaction, no earnings). *)
Theorem idle_round_records_nothing (toString36 : Q -> string) (now : Z) (g : Rng)
  (idx : IndexState) (s : Arena) :
  index_on_notes toString36 now (snd (run (ev_start :: repeat ev_timer 60) s)) (idx, g)
  = Ok (idx, g).
Proof.
  cbn [run]. rewrite step_start_eq. cbv iota beta.
  destruct (start_fields s) as (Hp & Ht & Hs).
  rewrite (timer_ticks_out 59 (startGame s) Hp) by (rewrite Ht; reflexivity).
  rewrite Hs. reflexivity.
Qed.



